(** * The gRPC transport of the Access Approval client

    A shallow embedding of
    [google/cloud/accessapproval_v1/services/access_approval/transports/grpc.py]
    (class [AccessApprovalGrpcTransport]) and the properties of its
    constructor, its channel property and its stub properties.

    The Python object [self] is a record of optional attributes, every
    method is a computation in a state-and-exception monad, and every call
    that leaves the class (authentication, TLS material, channel creation,
    the base constructor) is appended to a trace, so that "is never
    invoked" is a statement about that trace. *)

From stdpp Require Import gmap strings list.
From Stdlib Require Import Strings.Ascii Strings.Byte.

Open Scope string_scope.

(** ** Python values *)

(** A [google.auth.credentials.Credentials] object, known by its identity. *)
Inductive Credentials : Type :=
| Cred (tag : nat).

(** The values the local variable [credentials] of [__init__] takes:
    [None], the sentinel [False] written at line 132, or an object. *)
Inductive CredArg : Type :=
| CredNone
| CredFalse
| CredObj (c : Credentials).

(** A [grpc.ChannelCredentials] object: built by
    [grpc.ssl_channel_credentials] from a certificate chain and a private
    key, or the platform default held by [SslCredentials()]. *)
Inductive SslCredentials : Type :=
| SslFromCert (certificate_chain private_key : list byte)
| SslDefault (tag : nat).

(** The arguments [create_channel] hands to [grpc_helpers.create_channel]. *)
Record ChannelArgs : Type := {
  ca_target : string;
  ca_credentials : CredArg;
  ca_credentials_file : option string;
  ca_scopes : list string;
  ca_ssl_credentials : option SslCredentials;
  ca_quota_project_id : option string
}.

(** A [grpc.Channel] object: its identity, the arguments it was created
    from and the credentials attached to it. *)
Record Channel : Type := {
  ch_id : nat;
  ch_args : ChannelArgs;
  ch_credentials : Credentials
}.

(** The callable returned by [channel.unary_unary]. *)
Record Stub : Type := {
  stub_id : nat;
  stub_channel : nat;
  stub_path : string;
  stub_request_serializer : string;
  stub_response_deserializer : string
}.

Inductive Exc : Type :=
| DuplicateCredentialArgs
| DefaultCredentialsError
| MutualTLSChannelError
| CallbackRaised (code : nat)
| AttributeError (attr : string)
| KeyError (key : string).

Inductive Res (A : Type) : Type :=
| Ok (a : A)
| Raise (e : Exc).
Arguments Ok {A} a.
Arguments Raise {A} e.

(** ** Truthiness, as [if x:] and [x or y] read their operand *)

Definition str_truthy (s : option string) : bool :=
  match s with
  | Some (String _ _) => true
  | _ => false
  end.

Definition cred_truthy (c : CredArg) : bool :=
  match c with
  | CredObj _ => true
  | _ => false
  end.

(** The argument [credentials] as a value of the local variable. *)
Definition cred_arg (c : option Credentials) : CredArg :=
  match c with
  | Some c => CredObj c
  | None => CredNone
  end.

Definition obj_truthy {A : Type} (o : option A) : bool :=
  match o with
  | Some _ => true
  | None => false
  end.

(** [needle in hay] on two [str] values. *)
Definition str_in (needle hay : string) : bool :=
  match String.index 0 needle hay with
  | Some _ => true
  | None => false
  end.

(** ** The trace of calls that leave the class *)

Inductive Event : Type :=
| EvAuthDefault (scopes : list string) (quota_project_id : option string)
| EvLoadCredentialsFromFile (file : string) (scopes : list string)
    (quota_project_id : option string)
| EvClientCertSource
| EvSslChannelCredentials (certificate_chain private_key : list byte)
| EvDefaultSslCredentials
| EvCreateChannel (host : string) (credentials : CredArg)
    (credentials_file : option string) (scopes : option (list string))
    (quota_project_id : option string)
    (ssl_credentials : option SslCredentials)
| EvGrpcHelpersCreateChannel (args : ChannelArgs)
| EvBaseInit (host : string) (credentials : CredArg)
    (credentials_file : option string) (scopes : list string)
    (quota_project_id : option string)
| EvUnaryUnary (channel : nat) (path : string).

(** ** The instance and the state *)

(** The attributes of [self]; [None] is an attribute that does not exist
    ([hasattr] is false), and [_grpc_channel] holds a Python value that
    may itself be [None]. *)
Record Transport : Type := {
  _grpc_channel : option (option Channel);
  _stubs : option (gmap string Stub);
  _host : option string;
  _credentials : option CredArg
}.

Definition new_object : Transport :=
  {| _grpc_channel := None; _stubs := None; _host := None;
     _credentials := None |}.

Record State : Type := {
  self : Transport;
  trace : list Event;
  next_id : nat
}.

Definition M (A : Type) : Type := State -> Res A * State.

Definition ret {A : Type} (a : A) : M A := fun s => (Ok a, s).

Definition raise {A : Type} (e : Exc) : M A := fun s => (Raise e, s).

Definition bind {A B : Type} (m : M A) (k : A -> M B) : M B :=
  fun s =>
    match m s with
    | (Ok a, s') => k a s'
    | (Raise e, s') => (Raise e, s')
    end.

Declare Scope py_scope.
Delimit Scope py_scope with py.
Notation "'let*' x ':=' m 'in' k" := (bind m (fun x => k))
  (at level 10, x name, m at level 100, k at level 200) : py_scope.
Notation "m1 ;;; m2" := (bind m1 (fun _ => m2))
  (at level 100, m2 at level 200, right associativity) : py_scope.
Open Scope py_scope.

Definition emit (e : Event) : M unit :=
  fun s =>
    (Ok tt, {| self := self s; trace := trace s ++ [e];
               next_id := next_id s |}).

(** A fresh object identity. *)
Definition fresh : M nat :=
  fun s =>
    (Ok (next_id s),
     {| self := self s; trace := trace s; next_id := S (next_id s) |}).

Definition get_self : M Transport := fun s => (Ok (self s), s).

Definition put_self (t : Transport) : M unit :=
  fun s => (Ok tt, {| self := t; trace := trace s; next_id := next_id s |}).

(** [self.name], raising [AttributeError] when the attribute is missing. *)
Definition getattr {A : Type} (name : string) (field : Transport -> option A)
  : M A :=
  let* t := get_self in
  match field t with
  | Some v => ret v
  | None => raise (AttributeError name)
  end.

Definition set_grpc_channel (v : option Channel) : M unit :=
  let* t := get_self in
  put_self {| _grpc_channel := Some v; _stubs := _stubs t;
              _host := _host t; _credentials := _credentials t |}.

Definition set_stubs (d : gmap string Stub) : M unit :=
  let* t := get_self in
  put_self {| _grpc_channel := _grpc_channel t; _stubs := Some d;
              _host := _host t; _credentials := _credentials t |}.

Definition set_host (h : string) : M unit :=
  let* t := get_self in
  put_self {| _grpc_channel := _grpc_channel t; _stubs := _stubs t;
              _host := Some h; _credentials := _credentials t |}.

Definition set_credentials (c : CredArg) : M unit :=
  let* t := get_self in
  put_self {| _grpc_channel := _grpc_channel t; _stubs := _stubs t;
              _host := _host t; _credentials := Some c |}.

(** ** The collaborators outside the class *)

(** What the process environment answers: the class constant
    [AUTH_SCOPES] (declared in the base class), ambient credential
    discovery, credential files, the platform's default TLS material, and
    the form in which the base constructor stores the host name. *)
Record Env : Type := {
  AUTH_SCOPES : list string;
  ambient_credentials : list string -> option string -> option Credentials;
  file_credentials :
    string -> list string -> option string -> option Credentials;
  platform_ssl_credentials : option SslCredentials;
  stored_host : string -> string
}.

Section Collaborators.

Variable env : Env.

(** [google.auth.default(scopes=..., quota_project_id=...)]: the
    discovered credentials, or [DefaultCredentialsError] when the
    environment holds none. *)
Definition auth_default (scopes : list string)
    (quota_project_id : option string) : M Credentials :=
  emit (EvAuthDefault scopes quota_project_id) ;;;
  match ambient_credentials env scopes quota_project_id with
  | Some c => ret c
  | None => raise DefaultCredentialsError
  end.

(** [google.auth.load_credentials_from_file]. *)
Definition load_credentials_from_file (file : string)
    (scopes : list string) (quota_project_id : option string)
    : M Credentials :=
  emit (EvLoadCredentialsFromFile file scopes quota_project_id) ;;;
  match file_credentials env file scopes quota_project_id with
  | Some c => ret c
  | None => raise DefaultCredentialsError
  end.

(** [grpc.ssl_channel_credentials(certificate_chain=..., private_key=...)]. *)
Definition ssl_channel_credentials (cert key : list byte)
    : M SslCredentials :=
  emit (EvSslChannelCredentials cert key) ;;;
  ret (SslFromCert cert key).

(** [SslCredentials().ssl_credentials], which raises
    [MutualTLSChannelError] when the material cannot be assembled. *)
Definition default_ssl_credentials : M SslCredentials :=
  emit EvDefaultSslCredentials ;;;
  match platform_ssl_credentials env with
  | Some c => ret c
  | None => raise MutualTLSChannelError
  end.

(** Modelled from the spec: [grpc_helpers.create_channel] of
    [google.api_core], which is not part of the sources.  Its contract
    is the one the docstring of [create_channel] (lines 189 to 213)
    gives: [credentials] and [credentials_file] are mutually exclusive
    ([DuplicateCredentialArgs]); a credentials file is loaded; when no
    credentials are specified they are taken from the environment with
    [scopes] passed to [google.auth.default]. *)
Definition grpc_helpers_create_channel (a : ChannelArgs) : M Channel :=
  emit (EvGrpcHelpersCreateChannel a) ;;;
  if cred_truthy (ca_credentials a) && str_truthy (ca_credentials_file a)
  then raise DuplicateCredentialArgs
  else
    let* c :=
      match ca_credentials_file a, ca_credentials a with
      | Some (String x f), _ =>
          load_credentials_from_file (String x f) (ca_scopes a)
            (ca_quota_project_id a)
      | _, CredObj c => ret c
      | _, _ => auth_default (ca_scopes a) (ca_quota_project_id a)
      end in
    let* i := fresh in
    ret {| ch_id := i; ch_args := a; ch_credentials := c |}.

(** [channel.unary_unary(path, request_serializer=..., response_deserializer=...)]
    on the value held by [grpc_channel]: a new callable bound to the
    channel. *)
Definition unary_unary (channel : option Channel) (path : string)
    (request_serializer response_deserializer : string) : M Stub :=
  match channel with
  | None => raise (AttributeError "unary_unary")
  | Some ch =>
      emit (EvUnaryUnary (ch_id ch) path) ;;;
      let* i := fresh in
      ret {| stub_id := i; stub_channel := ch_id ch; stub_path := path;
             stub_request_serializer := request_serializer;
             stub_response_deserializer := response_deserializer |}
  end.

(** [scopes or self.AUTH_SCOPES]. *)
Definition scopes_or_default (scopes : option (list string))
    : list string :=
  match scopes with
  | Some (x :: l) => x :: l
  | _ => AUTH_SCOPES env
  end.

End Collaborators.

(** ** The base class *)

Module AccessApprovalTransport.
Section Base.

Variable env : Env.

(** Modelled from the spec: the constructor of the base class
    [AccessApprovalTransport] (module [.base], imported at line 31),
    which is not part of the sources.  It is the credential resolver of
    the specification: explicit credentials together with a
    credentials file are a configuration error; with neither, the
    credentials come from ambient discovery constrained to the scopes
    it is given, which fails with an authentication error when none
    are found; a credentials file alone is loaded; and the sentinel
    [False], which the subclass passes when the caller supplied a
    channel, skips resolution entirely.  It leaves [_host] and
    [_credentials] on the instance, which [grpc_channel] reads at line
    235.  "Supplied" is read the way the subclass reads its own
    optional arguments, by truthiness. *)
Definition __init__ (host : string) (credentials : CredArg)
    (credentials_file : option string) (scopes : list string)
    (quota_project_id : option string) : M unit :=
  emit (EvBaseInit host credentials credentials_file scopes
          quota_project_id) ;;;
  set_host (stored_host env host) ;;;
  if cred_truthy credentials && str_truthy credentials_file
  then raise DuplicateCredentialArgs
  else
    let* resolved :=
      match credentials, credentials_file with
      | CredFalse, _ => ret CredFalse
      | CredObj c, _ => ret (CredObj c)
      | CredNone, Some (String x f) =>
          let* c :=
            load_credentials_from_file env (String x f) scopes
              quota_project_id in
          ret (CredObj c)
      | CredNone, _ =>
          let* c := auth_default env scopes quota_project_id in
          ret (CredObj c)
      end in
    set_credentials resolved.

End Base.
End AccessApprovalTransport.

(** ** The gRPC transport *)

Module AccessApprovalGrpcTransport.

(** The keyword arguments of [__init__] (lines 83 to 94). *)
Record InitArgs : Type := {
  host : string;
  credentials : option Credentials;
  credentials_file : option string;
  scopes : option (list string);
  channel : option Channel;
  api_mtls_endpoint : option string;
  client_cert_source : option (unit -> Res (list byte * list byte));
  quota_project_id : option string
}.

(** The defaults of the signature. *)
Definition default_args : InitArgs :=
  {| host := "accessapproval.googleapis.com";
     credentials := None;
     credentials_file := None;
     scopes := None;
     channel := None;
     api_mtls_endpoint := None;
     client_cert_source := None;
     quota_project_id := None |}.

Section Transport.

Variable env : Env.

(** Lines 179 to 222. *)
Definition create_channel (host : string) (credentials : CredArg)
    (credentials_file : option string) (scopes : option (list string))
    (quota_project_id : option string)
    (ssl_credentials : option SslCredentials) : M Channel :=
  emit (EvCreateChannel host credentials credentials_file scopes
          quota_project_id ssl_credentials) ;;;
  let scopes := scopes_or_default env scopes in
  grpc_helpers_create_channel env
    {| ca_target := host;
       ca_credentials := credentials;
       ca_credentials_file := credentials_file;
       ca_scopes := scopes;
       ca_ssl_credentials := ssl_credentials;
       ca_quota_project_id := quota_project_id |}.

(** Lines 129 to 177.  The first component of the intermediate pair is
    the local [host], the second the local [credentials], as the three
    branches leave them. *)
Definition __init__ (a : InitArgs) : M unit :=
  let* locals :=
    if obj_truthy (channel a) then
      set_grpc_channel (channel a) ;;;
      ret (host a, CredFalse)
    else if str_truthy (api_mtls_endpoint a) then
      let endpoint := default "" (api_mtls_endpoint a) in
      let host :=
        if str_in ":" endpoint then endpoint else endpoint ++ ":443" in
      let* credentials :=
        match credentials a with
        | None =>
            let* c :=
              auth_default env (AUTH_SCOPES env) (quota_project_id a) in
            ret (CredObj c)
        | Some c => ret (CredObj c)
        end in
      let* ssl_credentials :=
        match client_cert_source a with
        | Some callback =>
            emit EvClientCertSource ;;;
            match callback tt with
            | Ok (cert, key) => ssl_channel_credentials cert key
            | Raise e => raise e
            end
        | None => default_ssl_credentials env
        end in
      let* ch :=
        create_channel host credentials (credentials_file a)
          (Some (scopes_or_default env (scopes a))) (quota_project_id a)
          (Some ssl_credentials) in
      set_grpc_channel (Some ch) ;;;
      ret (host, credentials)
    else ret (host a, cred_arg (credentials a)) in
  set_stubs ∅ ;;;
  AccessApprovalTransport.__init__ env (fst locals) (snd locals)
    (credentials_file a) (scopes_or_default env (scopes a))
    (quota_project_id a).

(** Calling the class with keyword arguments [a]: a new object, then
    [__init__]. *)
Definition instantiate (a : InitArgs) : M unit :=
  put_self new_object ;;;
  __init__ a.

(** Lines 224 to 239. *)
Definition grpc_channel : M (option Channel) :=
  let* t := get_self in
  match _grpc_channel t with
  | None =>
      let* h := getattr "_host" _host in
      let* c := getattr "_credentials" _credentials in
      let* ch := create_channel h c None None None None in
      set_grpc_channel (Some ch)
  | Some _ => ret tt
  end ;;;
  getattr "_grpc_channel" _grpc_channel.

(** The body every stub property shares (lines 265 to 271 and their
    six repetitions): [key] is the dictionary key, [path] the wire
    method path, the last two name the serializer and deserializer. *)
Definition stub_property (key path request_serializer
    response_deserializer : string) : M Stub :=
  let* stubs := getattr "_stubs" _stubs in
  match stubs !! key with
  | None =>
      let* ch := grpc_channel in
      let* f :=
        unary_unary ch path request_serializer response_deserializer in
      let* stubs := getattr "_stubs" _stubs in
      set_stubs (<[key := f]> stubs)
  | Some _ => ret tt
  end ;;;
  let* stubs := getattr "_stubs" _stubs in
  match stubs !! key with
  | Some f => ret f
  | None => raise (KeyError key)
  end.

Definition list_approval_requests : M Stub :=
  stub_property "list_approval_requests"
    "/google.cloud.accessapproval.v1.AccessApproval/ListApprovalRequests"
    "accessapproval.ListApprovalRequestsMessage.serialize"
    "accessapproval.ListApprovalRequestsResponse.deserialize".

Definition get_approval_request : M Stub :=
  stub_property "get_approval_request"
    "/google.cloud.accessapproval.v1.AccessApproval/GetApprovalRequest"
    "accessapproval.GetApprovalRequestMessage.serialize"
    "accessapproval.ApprovalRequest.deserialize".

Definition approve_approval_request : M Stub :=
  stub_property "approve_approval_request"
    "/google.cloud.accessapproval.v1.AccessApproval/ApproveApprovalRequest"
    "accessapproval.ApproveApprovalRequestMessage.serialize"
    "accessapproval.ApprovalRequest.deserialize".

Definition dismiss_approval_request : M Stub :=
  stub_property "dismiss_approval_request"
    "/google.cloud.accessapproval.v1.AccessApproval/DismissApprovalRequest"
    "accessapproval.DismissApprovalRequestMessage.serialize"
    "accessapproval.ApprovalRequest.deserialize".

Definition get_access_approval_settings : M Stub :=
  stub_property "get_access_approval_settings"
    "/google.cloud.accessapproval.v1.AccessApproval/GetAccessApprovalSettings"
    "accessapproval.GetAccessApprovalSettingsMessage.serialize"
    "accessapproval.AccessApprovalSettings.deserialize".

Definition update_access_approval_settings : M Stub :=
  stub_property "update_access_approval_settings"
    "/google.cloud.accessapproval.v1.AccessApproval/UpdateAccessApprovalSettings"
    "accessapproval.UpdateAccessApprovalSettingsMessage.serialize"
    "accessapproval.AccessApprovalSettings.deserialize".

Definition delete_access_approval_settings : M Stub :=
  stub_property "delete_access_approval_settings"
    "/google.cloud.accessapproval.v1.AccessApproval/DeleteAccessApprovalSettings"
    "accessapproval.DeleteAccessApprovalSettingsMessage.serialize"
    "empty.Empty.FromString".

End Transport.
End AccessApprovalGrpcTransport.

(** ** The stub properties as one family *)

(** One constructor per stub property of the class, in source order. *)
Inductive Operation : Type :=
| ListApprovalRequests
| GetApprovalRequest
| ApproveApprovalRequest
| DismissApprovalRequest
| GetAccessApprovalSettings
| UpdateAccessApprovalSettings
| DeleteAccessApprovalSettings.

Definition all_operations : list Operation :=
  [ListApprovalRequests; GetApprovalRequest; ApproveApprovalRequest;
   DismissApprovalRequest; GetAccessApprovalSettings;
   UpdateAccessApprovalSettings; DeleteAccessApprovalSettings].

(** The property that serves an operation. *)
Definition stub (env : Env) (op : Operation) : M Stub :=
  match op with
  | ListApprovalRequests =>
      AccessApprovalGrpcTransport.list_approval_requests env
  | GetApprovalRequest =>
      AccessApprovalGrpcTransport.get_approval_request env
  | ApproveApprovalRequest =>
      AccessApprovalGrpcTransport.approve_approval_request env
  | DismissApprovalRequest =>
      AccessApprovalGrpcTransport.dismiss_approval_request env
  | GetAccessApprovalSettings =>
      AccessApprovalGrpcTransport.get_access_approval_settings env
  | UpdateAccessApprovalSettings =>
      AccessApprovalGrpcTransport.update_access_approval_settings env
  | DeleteAccessApprovalSettings =>
      AccessApprovalGrpcTransport.delete_access_approval_settings env
  end.

(** The key under which the property caches its callable in [_stubs]. *)
Definition stub_key (op : Operation) : string :=
  match op with
  | ListApprovalRequests => "list_approval_requests"
  | GetApprovalRequest => "get_approval_request"
  | ApproveApprovalRequest => "approve_approval_request"
  | DismissApprovalRequest => "dismiss_approval_request"
  | GetAccessApprovalSettings => "get_access_approval_settings"
  | UpdateAccessApprovalSettings => "update_access_approval_settings"
  | DeleteAccessApprovalSettings => "delete_access_approval_settings"
  end.

(** The wire method path the property passes to [unary_unary]. *)
Definition method_path (op : Operation) : string :=
  match op with
  | ListApprovalRequests =>
      "/google.cloud.accessapproval.v1.AccessApproval/ListApprovalRequests"
  | GetApprovalRequest =>
      "/google.cloud.accessapproval.v1.AccessApproval/GetApprovalRequest"
  | ApproveApprovalRequest =>
      "/google.cloud.accessapproval.v1.AccessApproval/ApproveApprovalRequest"
  | DismissApprovalRequest =>
      "/google.cloud.accessapproval.v1.AccessApproval/DismissApprovalRequest"
  | GetAccessApprovalSettings =>
      "/google.cloud.accessapproval.v1.AccessApproval/GetAccessApprovalSettings"
  | UpdateAccessApprovalSettings =>
      "/google.cloud.accessapproval.v1.AccessApproval/UpdateAccessApprovalSettings"
  | DeleteAccessApprovalSettings =>
      "/google.cloud.accessapproval.v1.AccessApproval/DeleteAccessApprovalSettings"
  end.

Definition request_serializer (op : Operation) : string :=
  match op with
  | ListApprovalRequests =>
      "accessapproval.ListApprovalRequestsMessage.serialize"
  | GetApprovalRequest => "accessapproval.GetApprovalRequestMessage.serialize"
  | ApproveApprovalRequest =>
      "accessapproval.ApproveApprovalRequestMessage.serialize"
  | DismissApprovalRequest =>
      "accessapproval.DismissApprovalRequestMessage.serialize"
  | GetAccessApprovalSettings =>
      "accessapproval.GetAccessApprovalSettingsMessage.serialize"
  | UpdateAccessApprovalSettings =>
      "accessapproval.UpdateAccessApprovalSettingsMessage.serialize"
  | DeleteAccessApprovalSettings =>
      "accessapproval.DeleteAccessApprovalSettingsMessage.serialize"
  end.

Definition response_deserializer (op : Operation) : string :=
  match op with
  | ListApprovalRequests =>
      "accessapproval.ListApprovalRequestsResponse.deserialize"
  | GetApprovalRequest
  | ApproveApprovalRequest
  | DismissApprovalRequest => "accessapproval.ApprovalRequest.deserialize"
  | GetAccessApprovalSettings
  | UpdateAccessApprovalSettings =>
      "accessapproval.AccessApprovalSettings.deserialize"
  | DeleteAccessApprovalSettings => "empty.Empty.FromString"
  end.

(** The shape a method path is specified to have:
    [/<service-package>.<ServiceName>/<OperationName>]. *)
Definition service_prefix : string :=
  "/google.cloud.accessapproval.v1.AccessApproval/".

Definition upper (c : ascii) : ascii :=
  let n := nat_of_ascii c in
  if (97 <=? n)%nat && (n <=? 122)%nat then ascii_of_nat (n - 32) else c.

(** [snake_case] to [CamelCase]: the letter after every underscore, and
    the first one, is capitalised and the underscores go. *)
Fixpoint camel (capitalise : bool) (s : string) : string :=
  match s with
  | EmptyString => EmptyString
  | String c r =>
      if Ascii.eqb c "_" then camel true r
      else String (if capitalise then upper c else c) (camel false r)
  end.

Definition camel_case (s : string) : string := camel true s.

(** The operation name: what follows the service prefix in the path. *)
Definition operation_name (op : Operation) : string :=
  String.substring (String.length service_prefix)
    (String.length (method_path op) - String.length service_prefix)
    (method_path op).

(** ** Reading the instance over its lifetime *)

(** After construction the class offers its properties only. *)
Inductive Access : Type :=
| ReadChannel
| ReadStub (op : Operation).

Definition access (env : Env) (x : Access) : M unit :=
  match x with
  | ReadChannel => AccessApprovalGrpcTransport.grpc_channel env ;;; ret tt
  | ReadStub op => stub env op ;;; ret tt
  end.

Fixpoint accesses (env : Env) (l : list Access) : M unit :=
  match l with
  | [] => ret tt
  | x :: l => access env x ;;; accesses env l
  end.

(** ** Reading the trace *)

Inductive Callee : Type :=
| AuthDefault
| LoadCredentialsFromFile
| ClientCertSource
| SslChannelCredentials
| DefaultSslCredentials
| CreateChannel
| GrpcHelpersCreateChannel
| BaseInit
| UnaryUnary.

Definition callee (e : Event) : Callee :=
  match e with
  | EvAuthDefault _ _ => AuthDefault
  | EvLoadCredentialsFromFile _ _ _ => LoadCredentialsFromFile
  | EvClientCertSource => ClientCertSource
  | EvSslChannelCredentials _ _ => SslChannelCredentials
  | EvDefaultSslCredentials => DefaultSslCredentials
  | EvCreateChannel _ _ _ _ _ _ => CreateChannel
  | EvGrpcHelpersCreateChannel _ => GrpcHelpersCreateChannel
  | EvBaseInit _ _ _ _ _ => BaseInit
  | EvUnaryUnary _ _ => UnaryUnary
  end.

Definition is_create_channel (e : Event) : bool :=
  match e with
  | EvCreateChannel _ _ _ _ _ _ => true
  | _ => false
  end.

(** How many calls of [create_channel] a list of events holds. *)
Definition created (evs : list Event) : nat :=
  length (filter (fun e => is_create_channel e = true) evs).

(** How many times [create_channel] has been called so far. *)
Definition channels_created (s : State) : nat := created (trace s).

(** The calls made between two states of one run. *)
Definition events_since (s s' : State) : list Event :=
  drop (length (trace s)) (trace s').

(** The channel an instance holds, if it holds one. *)
Definition held_channel (t : Transport) : option Channel :=
  match _grpc_channel t with
  | Some (Some ch) => Some ch
  | _ => None
  end.

(** What the specification calls the channel's configuration. *)
Definition channel_configuration (ch : Channel)
  : CredArg * option string * list string * option SslCredentials *
    option string :=
  (ca_credentials (ch_args ch), ca_credentials_file (ch_args ch),
   ca_scopes (ch_args ch), ca_ssl_credentials (ch_args ch),
   ca_quota_project_id (ch_args ch)).

Import AccessApprovalGrpcTransport.

(** ** Statements about one construction *)

(** The error, if any, that assembling the TLS material of the
    mutual-TLS branch ends in (lines 150 to 156). *)
Definition tls_material_error (env : Env) (a : InitArgs) : option Exc :=
  if str_truthy (api_mtls_endpoint a) then
    match client_cert_source a with
    | Some callback =>
        match callback tt with
        | Ok _ => None
        | Raise e => Some e
        end
    | None =>
        match platform_ssl_credentials env with
        | Some _ => None
        | None => Some MutualTLSChannelError
        end
    end
  else None.

(** No call in [evs] goes to [c]. *)
Definition not_called (c : Callee) (evs : list Event) : Prop :=
  forall e, e ∈ evs -> callee e <> c.

(** Every call in [evs] is a credential lookup. *)
Definition resolution_only (evs : list Event) : Prop :=
  forall e, e ∈ evs ->
    callee e = AuthDefault \/ callee e = LoadCredentialsFromFile.

(** Every call in [evs] that takes a host takes [h]. *)
Definition hosts_are (h : string) (evs : list Event) : Prop :=
  forall e, e ∈ evs ->
    match e with
    | EvCreateChannel h' _ _ _ _ _ => h' = h
    | EvGrpcHelpersCreateChannel args => ca_target args = h
    | EvBaseInit h' _ _ _ _ => h' = h
    | _ => True
    end.

(** The endpoint holds the port separator [":"]. *)
Definition has_port_separator (endpoint : string) : Prop :=
  In ":"%char (String.list_ascii_of_string endpoint).

(** The host the instance ends up working with is [h]: every call made
    while constructing it takes [h], and a finished instance holds a
    channel to [h] and stores [h]. *)
Definition effective_host (env : Env) (s : State) (r : Res unit * State)
    (h : string) : Prop :=
  hosts_are h (events_since s (snd r)) /\
  (fst r = Ok tt ->
   exists ch,
     _grpc_channel (self (snd r)) = Some (Some ch) /\
     ca_target (ch_args ch) = h /\
     _host (self (snd r)) = Some (stored_host env h)).

(** The arguments [create_channel] forwards (lines 214 to 222). *)
Definition forwarded_args (env : Env) (host : string) (credentials : CredArg)
    (credentials_file : option string) (scopes : option (list string))
    (quota_project_id : option string)
    (ssl_credentials : option SslCredentials) : ChannelArgs :=
  {| ca_target := host;
     ca_credentials := credentials;
     ca_credentials_file := credentials_file;
     ca_scopes := scopes_or_default env scopes;
     ca_ssl_credentials := ssl_credentials;
     ca_quota_project_id := quota_project_id |}.

(** The channel the constructor itself creates and leaves on the
    instance. *)
Definition eager_channel (env : Env) (a : InitArgs) (s : State)
  : option Channel :=
  match instantiate env a s with
  | (Ok _, s') => held_channel (self s')
  | (Raise _, _) => None
  end.

(** The channel the first read of [grpc_channel] returns on a new
    instance. *)
Definition lazy_channel (env : Env) (a : InitArgs) (s : State)
  : option Channel :=
  match (instantiate env a ;;; grpc_channel env) s with
  | (Ok v, _) => v
  | (Raise _, _) => None
  end.

(** ** The instance between two reads *)

(** The entries of a dispatch table are the ones the properties build. *)
Definition stubs_wf (d : gmap string Stub) : Prop :=
  forall op f, d !! stub_key op = Some f -> stub_path f = method_path op.

(** What construction establishes and every read keeps: a dispatch
    table, and either a channel or what it takes to create one. *)
Definition ready (t : Transport) : Prop :=
  (exists d, _stubs t = Some d /\ stubs_wf d) /\
  ((exists ch, _grpc_channel t = Some (Some ch)) \/
   (_grpc_channel t = None /\
    exists h c, _host t = Some h /\ _credentials t = Some (CredObj c))).

(** The channels still to be created: one as long as there is none. *)
Definition pending (t : Transport) : nat :=
  match _grpc_channel t with
  | None => 1
  | Some _ => 0
  end.

(** Nothing the first instance holds is lost or replaced in the second. *)
Definition keeps (t t' : Transport) : Prop :=
  (forall v, _grpc_channel t = Some v -> _grpc_channel t' = Some v) /\
  (forall d, _stubs t = Some d ->
             exists d', _stubs t' = Some d' /\ d ⊆ d').

(** The entry the dispatch table holds for an operation. *)
Definition cached_stub (t : Transport) (op : Operation) : option Stub :=
  match _stubs t with
  | Some d => d !! stub_key op
  | None => None
  end.

(** The number of entries of the dispatch table. *)
Definition dispatch_entries (t : Transport) : option nat :=
  match _stubs t with
  | Some d => Some (size d)
  | None => None
  end.

(** An instance built from [a] whose every stub property was read once. *)
Definition after_reading_every_stub (env : Env) (a : InitArgs) (s : State)
  : Transport :=
  self (snd ((instantiate env a ;;;
              accesses env (ReadStub <$> all_operations)) s)).

#[global] Instance Operation_eq_dec : EqDecision Operation.
Proof. solve_decision. Defined.

(** ** Concrete environments and arguments *)

(** The port convention of the host name, as one base class may store it. *)
Definition host_with_port (h : string) : string :=
  if str_in ":" h then h else h ++ ":443".

(** An environment with ambient credentials, readable credential files
    and platform TLS material. *)
Definition env_full : Env :=
  {| AUTH_SCOPES := ["https://www.googleapis.com/auth/cloud-platform"];
     ambient_credentials := fun _ _ => Some (Cred 0);
     file_credentials := fun _ _ _ => Some (Cred 1);
     platform_ssl_credentials := Some (SslDefault 0);
     stored_host := host_with_port |}.

(** An environment with nothing to discover. *)
Definition env_bare : Env :=
  {| AUTH_SCOPES := ["https://www.googleapis.com/auth/cloud-platform"];
     ambient_credentials := fun _ _ => None;
     file_credentials := fun _ _ _ => None;
     platform_ssl_credentials := None;
     stored_host := host_with_port |}.

(** The state before the first construction. *)
Definition start : State :=
  {| self := new_object; trace := []; next_id := 100 |}.

(** A channel the caller built beforehand. *)
Definition injected_channel : Channel :=
  {| ch_id := 7;
     ch_args :=
       {| ca_target := "localhost:8080";
          ca_credentials := CredNone;
          ca_credentials_file := None;
          ca_scopes := [];
          ca_ssl_credentials := None;
          ca_quota_project_id := None |};
     ch_credentials := Cred 9 |}.

(** The arguments [a] with one keyword replaced. *)
Definition with_channel (ch : option Channel) (a : InitArgs) : InitArgs :=
  {| host := host a; credentials := credentials a;
     credentials_file := credentials_file a; scopes := scopes a;
     channel := ch; api_mtls_endpoint := api_mtls_endpoint a;
     client_cert_source := client_cert_source a;
     quota_project_id := quota_project_id a |}.

Definition with_credentials (c : option Credentials) (a : InitArgs)
  : InitArgs :=
  {| host := host a; credentials := c;
     credentials_file := credentials_file a; scopes := scopes a;
     channel := channel a; api_mtls_endpoint := api_mtls_endpoint a;
     client_cert_source := client_cert_source a;
     quota_project_id := quota_project_id a |}.

Definition with_credentials_file (f : option string) (a : InitArgs)
  : InitArgs :=
  {| host := host a; credentials := credentials a;
     credentials_file := f; scopes := scopes a;
     channel := channel a; api_mtls_endpoint := api_mtls_endpoint a;
     client_cert_source := client_cert_source a;
     quota_project_id := quota_project_id a |}.

Definition with_scopes (l : option (list string)) (a : InitArgs)
  : InitArgs :=
  {| host := host a; credentials := credentials a;
     credentials_file := credentials_file a; scopes := l;
     channel := channel a; api_mtls_endpoint := api_mtls_endpoint a;
     client_cert_source := client_cert_source a;
     quota_project_id := quota_project_id a |}.

Definition with_api_mtls_endpoint (e : option string) (a : InitArgs)
  : InitArgs :=
  {| host := host a; credentials := credentials a;
     credentials_file := credentials_file a; scopes := scopes a;
     channel := channel a; api_mtls_endpoint := e;
     client_cert_source := client_cert_source a;
     quota_project_id := quota_project_id a |}.

Definition with_quota_project_id (q : option string) (a : InitArgs)
  : InitArgs :=
  {| host := host a; credentials := credentials a;
     credentials_file := credentials_file a; scopes := scopes a;
     channel := channel a; api_mtls_endpoint := api_mtls_endpoint a;
     client_cert_source := client_cert_source a;
     quota_project_id := q |}.

(** Explicit credentials and a credentials file, both. *)
Definition duplicate_args : InitArgs :=
  with_credentials (Some (Cred 5))
    (with_credentials_file (Some "credentials.json") default_args).

(** A mutual-TLS endpoint without a port and nothing else. *)
Definition mtls_args : InitArgs :=
  with_api_mtls_endpoint (Some "accessapproval.mtls.googleapis.com")
    default_args.

(** A scope list that is not the default one. *)
Definition read_only_scope : list string :=
  ["https://www.googleapis.com/auth/devstorage.read_only"].

(** The mutual-TLS branch with scopes of the caller's own and nothing
    else. *)
Definition scoped_mtls_args : InitArgs :=
  with_scopes (Some read_only_scope) mtls_args.

(** The mutual-TLS branch with scopes and a quota project. *)
Definition billed_mtls_args : InitArgs :=
  with_quota_project_id (Some "billing-project")
    (with_scopes (Some read_only_scope) mtls_args).

(** A channel, a mutual-TLS endpoint and a certificate callback, all
    three. *)
Definition channel_and_mtls_args : InitArgs :=
  {| host := "accessapproval.googleapis.com";
     credentials := None;
     credentials_file := None;
     scopes := None;
     channel := Some injected_channel;
     api_mtls_endpoint := Some "accessapproval.mtls.googleapis.com";
     client_cert_source := Some (fun _ => Raise (CallbackRaised 1));
     quota_project_id := None |}.

(** ** Statements about the reads of an instance *)

Definition is_unary_unary (e : Event) : bool :=
  match e with
  | EvUnaryUnary _ _ => true
  | _ => false
  end.

(** How many calls of [unary_unary] a list of events holds. *)
Definition unary_calls (evs : list Event) : nat :=
  length (filter (fun e => is_unary_unary e = true) evs).

(** Every call in [evs] creates a channel or binds a callable. *)
Definition reads_only (evs : list Event) : Prop :=
  forall e, e ∈ evs ->
    callee e = CreateChannel \/ callee e = GrpcHelpersCreateChannel \/
    callee e = UnaryUnary.

(** The channel the first read creates on an instance in state [s] that
    holds none: a new object, made by [create_channel] from the stored
    host and the stored credentials and nothing else (lines 234 to
    236). *)
Definition lazily_created (env : Env) (s : State) (ch : Channel) : Prop :=
  exists h c,
    _host (self s) = Some h /\
    _credentials (self s) = Some (CredObj c) /\
    ch =
      {| ch_id := next_id s;
         ch_args := forwarded_args env h (CredObj c) None None None None;
         ch_credentials := c |}.

(** Every call of [create_channel] in [evs] is the one of lines 234 to
    236 on the instance [t]. *)
Definition lazy_calls (t : Transport) (evs : list Event) : Prop :=
  forall h c f sc q ssl,
    EvCreateChannel h c f sc q ssl ∈ evs ->
    _host t = Some h /\ _credentials t = Some c /\
    f = None /\ sc = None /\ q = None /\ ssl = None.

(** Every entry of the table is the callable its property builds on the
    channel [ch]. *)
Definition stubs_bound (d : gmap string Stub) (ch : Channel) : Prop :=
  forall op f,
    d !! stub_key op = Some f ->
    stub_channel f = ch_id ch /\
    stub_path f = method_path op /\
    stub_request_serializer f = request_serializer op /\
    stub_response_deserializer f = response_deserializer op.

(** An instance is ready, and its table is empty as long as it holds no
    channel and bound to the channel once it holds one. *)
Definition coherent (t : Transport) : Prop :=
  ready t /\
  exists d,
    _stubs t = Some d /\
    match held_channel t with
    | Some ch => stubs_bound d ch
    | None => d = ∅
    end.

(** The keys of the stub properties among a list of reads. *)
Definition keys_read (l : list Access) : gset string :=
  list_to_set
    (omap (fun x => match x with
                    | ReadStub op => Some (stub_key op)
                    | ReadChannel => None
                    end) l).

Definition with_host (h : string) (a : InitArgs) : InitArgs :=
  {| host := h; credentials := credentials a;
     credentials_file := credentials_file a; scopes := scopes a;
     channel := channel a; api_mtls_endpoint := api_mtls_endpoint a;
     client_cert_source := client_cert_source a;
     quota_project_id := quota_project_id a |}.

Definition with_client_cert_source
    (cb : option (unit -> Res (list byte * list byte))) (a : InitArgs)
  : InitArgs :=
  {| host := host a; credentials := credentials a;
     credentials_file := credentials_file a; scopes := scopes a;
     channel := channel a; api_mtls_endpoint := api_mtls_endpoint a;
     client_cert_source := cb;
     quota_project_id := quota_project_id a |}.

(** A certificate callback that answers, and one that fails. *)
Definition pem_callback (_ : unit) : Res (list byte * list byte) :=
  Ok ([x2d; x2d], [x2b; x2b]).

Definition failing_callback (_ : unit) : Res (list byte * list byte) :=
  Raise (CallbackRaised 2).

(** Explicit credentials and nothing else. *)
Definition explicit_args : InitArgs :=
  with_credentials (Some (Cred 5)) default_args.

(** What a non-empty sequence of reads does to an instance, from [s] to
    [s']: it makes calls that create a channel or bind a callable only,
    creates a channel from the stored host and credentials if the
    instance held none and keeps the one it held otherwise, binds one
    callable for every key that is new to the table, adds the keys
    [keys] and keeps the stored host and credentials. *)
Definition read_step (env : Env) (keys : gset string) (s s' : State)
  : Prop :=
  exists evs d d' ch,
    trace s' = (trace s ++ evs)%list /\
    reads_only evs /\
    lazy_calls (self s) evs /\
    _stubs (self s) = Some d /\
    _stubs (self s') = Some d' /\
    unary_calls evs + size d = size d' /\
    dom d' = keys ∪ dom d /\
    _host (self s') = _host (self s) /\
    _credentials (self s') = _credentials (self s) /\
    held_channel (self s') = Some ch /\
    (held_channel (self s) = Some ch \/
     (held_channel (self s) = None /\ lazily_created env s ch)) /\
    coherent (self s').

(** An endpoint and a credentials file, and nothing else. *)
Definition file_mtls_args : InitArgs :=
  with_credentials_file (Some "credentials.json") mtls_args.

(** An instance as line 168 and the stored host and credentials leave
    it, before anything was read: no channel, an empty table. *)
Definition unread_instance : State :=
  {| self :=
       {| _grpc_channel := None;
          _stubs := Some ∅;
          _host := Some "accessapproval.googleapis.com:443";
          _credentials := Some (CredObj (Cred 0)) |};
     trace := [];
     next_id := 100 |}.

(** An instance around a supplied channel on which one stub property,
    [get_approval_request], was read. *)
Definition half_read_instance : State :=
  {| self :=
       {| _grpc_channel := Some (Some injected_channel);
          _stubs :=
            Some
              {[ "get_approval_request" :=
                   {| stub_id := 100;
                      stub_channel := 7;
                      stub_path := method_path GetApprovalRequest;
                      stub_request_serializer :=
                        request_serializer GetApprovalRequest;
                      stub_response_deserializer :=
                        response_deserializer GetApprovalRequest |} ]};
          _host := Some "accessapproval.googleapis.com:443";
          _credentials := Some CredFalse |};
     trace := [];
     next_id := 101 |}.

(** * Properties *)

(** ** Traces and tactics *)

Lemma events_since_app (s s' : State) (evs : list Event) :
  trace s' = (trace s ++ evs)%list -> events_since s s' = evs.
Proof.
  intros H. unfold events_since. rewrite H. apply drop_app_length.
Qed.

(** Unfold the monad and the collaborators down to state transformers. *)
Ltac unfold_py :=
  unfold instantiate, __init__, AccessApprovalTransport.__init__,
    grpc_channel, stub_property, create_channel,
    grpc_helpers_create_channel, unary_unary, auth_default,
    load_credentials_from_file, default_ssl_credentials,
    ssl_channel_credentials, set_grpc_channel, set_stubs, set_host,
    set_credentials, getattr, put_self, get_self, emit, fresh, bind, ret,
    raise in *.

(** [c] is not among the callees of a concrete list of events. *)
Ltac no_such_call :=
  let e := fresh "e" in
  let H := fresh "Hin" in
  intros e H;
  repeat (apply elem_of_cons in H as [-> | H]; [discriminate |]);
  exact (False_ind _ (proj1 (elem_of_nil _) H)).

(** Every call of a concrete list of events takes the expected host. *)
Ltac such_hosts :=
  let e := fresh "e" in
  let H := fresh "Hin" in
  intros e H;
  repeat (apply elem_of_cons in H as [-> | H]; [exact I || reflexivity |]);
  exact (False_ind _ (proj1 (elem_of_nil _) H)).

(** [":" in s] holds exactly when the character occurs in [s]. *)
Lemma str_in_colon (s : string) :
  str_in ":" s = true <-> In ":"%char (String.list_ascii_of_string s).
Proof.
  unfold str_in. induction s as [| c s IH]; cbn -[ascii_dec].
  - split; [discriminate | tauto].
  - destruct (ascii_dec ":" c) as [<- | Hne].
    + replace (String.prefix "" s) with true by (destruct s; reflexivity).
      split; [intros _; now left | reflexivity].
    + destruct (String.index 0 ":" s); cbn -[ascii_dec] in *.
      * split; [intros _; right; now apply IH | reflexivity].
      * split; [discriminate |].
        intros [Heq | Hin]; [congruence | now apply IH].
Qed.

(** ** The collaborators, one call at a time *)

Lemma bind_run {A B : Type} (m : M A) (k : A -> M B) (s : State) :
  bind m k s =
    match m s with
    | (Ok a, s') => k a s'
    | (Raise e, s') => (Raise e, s')
    end.
Proof. reflexivity. Qed.

Lemma scopes_or_default_idem (env : Env) (sc : option (list string)) :
  scopes_or_default env (Some (scopes_or_default env sc)) =
    scopes_or_default env sc.
Proof.
  unfold scopes_or_default.
  destruct sc as [[| x l] |]; try reflexivity;
    destruct (AUTH_SCOPES env); reflexivity.
Qed.

Lemma resolution_only_nil : resolution_only [].
Proof. intros e H. now apply elem_of_nil in H. Qed.

Lemma resolution_only_auth (sc : list string) (q : option string) :
  resolution_only [EvAuthDefault sc q].
Proof.
  intros e H. apply list_elem_of_singleton in H as ->. now left.
Qed.

Lemma resolution_only_load (f : string) (sc : list string)
    (q : option string) :
  resolution_only [EvLoadCredentialsFromFile f sc q].
Proof.
  intros e H. apply list_elem_of_singleton in H as ->. now right.
Qed.

Create HintDb py.

#[local] Hint Resolve resolution_only_nil resolution_only_auth
  resolution_only_load : py.

(** [grpc_helpers.create_channel] announces itself, looks credentials up
    at most, leaves [self] alone, and a channel it returns carries the
    arguments it was given and a fresh identity. *)
Lemma grpc_helpers_create_channel_run (env : Env) (args : ChannelArgs)
    (s : State) :
  let r := grpc_helpers_create_channel env args s in
  self (snd r) = self s /\
  (exists evs,
     trace (snd r) =
       (trace s ++ EvGrpcHelpersCreateChannel args :: evs)%list /\
     resolution_only evs) /\
  match fst r with
  | Ok ch =>
      ch_args ch = args /\ ch_id ch = next_id s /\
      next_id (snd r) = S (next_id s)
  | Raise _ => next_id (snd r) = next_id s
  end.
Proof.
  unfold_py. cbn.
  destruct (cred_truthy (ca_credentials args) &&
            str_truthy (ca_credentials_file args)); cbn.
  { repeat split; eauto with py. }
  destruct (ca_credentials_file args) as [[| x f] |],
           (ca_credentials args) as [| | c]; cbn;
    try destruct (ambient_credentials env _ _); cbn;
    try destruct (file_credentials env _ _ _); cbn;
    rewrite <- ?app_assoc; cbn [app];
    repeat split; eauto with py.
Qed.

Lemma create_channel_run (env : Env) (h : string) (c : CredArg)
    (f : option string) (sc : option (list string)) (q : option string)
    (ssl : option SslCredentials) (s : State) :
  let r := create_channel env h c f sc q ssl s in
  self (snd r) = self s /\
  (exists evs,
     trace (snd r) =
       (trace s ++
        EvCreateChannel h c f sc q ssl ::
        EvGrpcHelpersCreateChannel (forwarded_args env h c f sc q ssl) ::
        evs)%list /\
     resolution_only evs) /\
  match fst r with
  | Ok ch =>
      ch_args ch = forwarded_args env h c f sc q ssl /\
      ch_id ch = next_id s /\
      next_id (snd r) = S (next_id s)
  | Raise _ => next_id (snd r) = next_id s
  end.
Proof.
  intros r. subst r. unfold create_channel.
  rewrite bind_run. cbn [emit].
  match goal with
  | |- context [grpc_helpers_create_channel env ?a ?s0] =>
      pose proof (grpc_helpers_create_channel_run env a s0) as H;
      cbv zeta in H; change a with (forwarded_args env h c f sc q ssl) in *;
      destruct (grpc_helpers_create_channel env
                  (forwarded_args env h c f sc q ssl) s0) as [res s1]
  end.
  cbn [fst snd self trace next_id] in *.
  destruct H as (Hself & (evs & Htr & Hres) & Hok).
  repeat split; [exact Hself | | exact Hok].
  exists evs. split; [| exact Hres].
  rewrite Htr, <- app_assoc. reflexivity.
Qed.

(** The base constructor announces itself, looks credentials up at most,
    stores the host, and touches neither the channel nor the stubs. *)
Lemma base_init_run (env : Env) (h : string) (c : CredArg)
    (f : option string) (sc : list string) (q : option string)
    (s : State) :
  let r := AccessApprovalTransport.__init__ env h c f sc q s in
  _grpc_channel (self (snd r)) = _grpc_channel (self s) /\
  _stubs (self (snd r)) = _stubs (self s) /\
  _host (self (snd r)) = Some (stored_host env h) /\
  next_id (snd r) = next_id s /\
  (exists evs,
     trace (snd r) = (trace s ++ EvBaseInit h c f sc q :: evs)%list /\
     resolution_only evs) /\
  (fst r = Ok tt ->
   match c with
   | CredFalse => _credentials (self (snd r)) = Some CredFalse
   | CredObj o => _credentials (self (snd r)) = Some (CredObj o)
   | CredNone => exists o, _credentials (self (snd r)) = Some (CredObj o)
   end).
Proof.
  unfold_py. cbn.
  destruct (cred_truthy c && str_truthy f); cbn.
  { repeat split; eauto with py. discriminate. }
  destruct c as [| | o], f as [[| x f] |]; cbn;
    try destruct (ambient_credentials env _ _); cbn;
    try destruct (file_credentials env _ _ _); cbn;
    rewrite <- ?app_assoc; cbn [app];
    repeat split; eauto with py; discriminate.
Qed.

(** ** Construction around a channel supplied by the caller *)

(** With a channel, construction is the assignment of that channel, an
    empty [_stubs] and one call of the base constructor with the sentinel
    [False]. *)
Lemma instantiate_with_channel (env : Env) (a : InitArgs) (ch : Channel)
    (s : State) :
  channel a = Some ch ->
  instantiate env a s =
    (Ok tt,
     {| self :=
          {| _grpc_channel := Some (Some ch);
             _stubs := Some ∅;
             _host := Some (stored_host env (host a));
             _credentials := Some CredFalse |};
        trace :=
          trace s ++
          [EvBaseInit (host a) CredFalse (credentials_file a)
             (scopes_or_default env (scopes a)) (quota_project_id a)];
        next_id := next_id s |}).
Proof.
  intros Hch. unfold instantiate, __init__, bind. cbn.
  rewrite Hch. reflexivity.
Qed.

(** C3.  Whenever the caller supplies a channel, construction resolves
    no credentials and creates no channel: it succeeds, the supplied
    channel is the instance's channel, and among the calls made during
    construction there is none to [auth.default], none to
    [load_credentials_from_file], none to [create_channel] and none to
    [grpc_helpers.create_channel]. *)
Theorem channel_skips_resolution (env : Env) (a : InitArgs) (ch : Channel)
    (s : State) :
  channel a = Some ch ->
  let r := instantiate env a s in
  fst r = Ok tt /\
  _grpc_channel (self (snd r)) = Some (Some ch) /\
  trace (snd r) = (trace s ++ events_since s (snd r))%list /\
  not_called AuthDefault (events_since s (snd r)) /\
  not_called LoadCredentialsFromFile (events_since s (snd r)) /\
  not_called CreateChannel (events_since s (snd r)) /\
  not_called GrpcHelpersCreateChannel (events_since s (snd r)).
Proof.
  intros Hch r. subst r. rewrite (instantiate_with_channel env a ch s Hch).
  cbn [fst snd self trace].
  erewrite events_since_app by reflexivity.
  repeat split; no_such_call.
Qed.

(** C3 at a channel supplied with the default arguments. *)
Lemma channel_skips_resolution_witness :
  channel (with_channel (Some injected_channel) default_args) =
    Some injected_channel /\
  held_channel
    (self (snd (instantiate env_bare
                  (with_channel (Some injected_channel) default_args)
                  start))) = Some injected_channel.
Proof.
  split; [reflexivity |].
  pose proof (channel_skips_resolution env_bare
                (with_channel (Some injected_channel) default_args)
                injected_channel start eq_refl) as H.
  cbv zeta in H. destruct H as (_ & H & _).
  unfold held_channel. rewrite H. reflexivity.
Defined.

(** C9.  Whenever the caller supplies both a channel and a mutual-TLS
    endpoint, the channel wins and the mutual-TLS branch does not run:
    the only call made is the base constructor's, with the caller's host
    unchanged; the certificate callback is not invoked, no TLS
    credentials are assembled, no channel is created, and the supplied
    channel is the instance's channel. *)
Theorem channel_precedes_mtls (env : Env) (a : InitArgs) (ch : Channel)
    (e : string) (s : State) :
  channel a = Some ch ->
  api_mtls_endpoint a = Some e ->
  let r := instantiate env a s in
  fst r = Ok tt /\
  _grpc_channel (self (snd r)) = Some (Some ch) /\
  events_since s (snd r) =
    [EvBaseInit (host a) CredFalse (credentials_file a)
       (scopes_or_default env (scopes a)) (quota_project_id a)] /\
  trace (snd r) = (trace s ++ events_since s (snd r))%list /\
  not_called ClientCertSource (events_since s (snd r)) /\
  not_called SslChannelCredentials (events_since s (snd r)) /\
  not_called DefaultSslCredentials (events_since s (snd r)) /\
  not_called CreateChannel (events_since s (snd r)).
Proof.
  intros Hch _ r. subst r. rewrite (instantiate_with_channel env a ch s Hch).
  cbn [fst snd self trace].
  erewrite events_since_app by reflexivity.
  repeat split; no_such_call.
Qed.

(** C10.  With a channel supplied, two constructions that differ in the
    [credentials] argument only run identically: same result, same
    instance, same calls; and the base constructor receives the sentinel
    [False] whatever the argument was. *)
Theorem channel_discards_credentials (env : Env) (a : InitArgs)
    (ch : Channel) (c1 c2 : option Credentials) (s : State) :
  channel a = Some ch ->
  instantiate env (with_credentials c1 a) s =
    instantiate env (with_credentials c2 a) s /\
  forall c h c' f sc q,
    EvBaseInit h c' f sc q ∈
      events_since s (snd (instantiate env (with_credentials c a) s)) ->
    c' = CredFalse.
Proof.
  intros Hch. split.
  - rewrite !(instantiate_with_channel env _ ch s) by exact Hch.
    reflexivity.
  - intros c h c' f sc q.
    rewrite (instantiate_with_channel env _ ch s) by exact Hch.
    cbn [snd]. erewrite events_since_app by reflexivity.
    intros Hin. apply list_elem_of_singleton in Hin. congruence.
Qed.

(** ** Construction with both credentials and a credentials file *)

(** C1 does not hold as stated: with a channel supplied as well, explicit
    credentials together with a credentials file are accepted. *)
Lemma duplicate_with_channel_accepted :
  fst (instantiate env_full
         (with_channel (Some injected_channel) duplicate_args) start) <>
    Raise DuplicateCredentialArgs.
Proof. vm_compute. discriminate. Qed.

(** C1, as amended.  With explicit credentials and a non-empty
    credentials file: without a channel the construction always fails,
    with [DuplicateCredentialArgs] unless assembling the TLS material of
    the mutual-TLS branch fails first, and then with that error; with a
    channel the [credentials] argument is discarded and
    [DuplicateCredentialArgs] is not raised. *)
Theorem duplicate_credentials_rejected (env : Env) (a : InitArgs)
    (c : Credentials) (x : ascii) (f : string) (s : State) :
  credentials a = Some c ->
  credentials_file a = Some (String x f) ->
  (channel a = None ->
   fst (instantiate env a s) =
     Raise (default DuplicateCredentialArgs (tls_material_error env a))) /\
  (forall ch, channel a = Some ch ->
              fst (instantiate env a s) <> Raise DuplicateCredentialArgs).
Proof.
  intros Hc Hf. split.
  - intros Hch. unfold tls_material_error. unfold_py. cbn.
    rewrite Hch, Hc, Hf. cbn.
    destruct (str_truthy (api_mtls_endpoint a)); cbn; [| reflexivity].
    destruct (client_cert_source a) as [cb |]; cbn.
    + destruct (cb tt) as [[cert key] | e]; reflexivity.
    + destruct (platform_ssl_credentials env); reflexivity.
  - intros ch Hch. rewrite (instantiate_with_channel env a ch s Hch).
    discriminate.
Qed.

(** ** Reading lists of events *)

Lemma hosts_are_nil (h : string) : hosts_are h [].
Proof. intros e H. now apply elem_of_nil in H. Qed.

Lemma hosts_are_cons (h : string) (e : Event) (l : list Event) :
  match e with
  | EvCreateChannel h' _ _ _ _ _ => h' = h
  | EvGrpcHelpersCreateChannel args => ca_target args = h
  | EvBaseInit h' _ _ _ _ => h' = h
  | _ => True
  end ->
  hosts_are h l -> hosts_are h (e :: l).
Proof.
  intros He Hl e' Hin.
  apply elem_of_cons in Hin as [-> | Hin]; [exact He | now apply Hl].
Qed.

Lemma hosts_are_app (h : string) (l1 l2 : list Event) :
  hosts_are h l1 -> hosts_are h l2 -> hosts_are h (l1 ++ l2).
Proof.
  intros H1 H2 e Hin.
  apply elem_of_app in Hin as [Hin | Hin]; [now apply H1 | now apply H2].
Qed.

Lemma hosts_are_resolution (h : string) (evs : list Event) :
  resolution_only evs -> hosts_are h evs.
Proof.
  intros Hres e Hin. destruct (Hres e Hin) as [H | H];
    destruct e; try discriminate H; exact I.
Qed.

(** Every call of a list built from conses, appends and credential
    lookups takes the expected host. *)
Ltac hosts :=
  repeat first
    [ apply hosts_are_nil
    | apply hosts_are_resolution; assumption
    | apply hosts_are_cons; [exact I || reflexivity |]
    | apply hosts_are_app ].

Lemma created_app (l1 l2 : list Event) :
  created (l1 ++ l2) = created l1 + created l2.
Proof. unfold created. now rewrite filter_app, length_app. Qed.

Lemma created_nil : created [] = 0.
Proof. reflexivity. Qed.

Lemma created_cons (e : Event) (l : list Event) :
  created (e :: l) = (if is_create_channel e then 1 else 0) + created l.
Proof.
  unfold created. rewrite filter_cons.
  destruct (is_create_channel e); case_decide; cbn; congruence.
Qed.

(** Count the calls of [create_channel] in a list built from conses and
    appends. *)
Ltac count_created :=
  repeat (rewrite created_app || rewrite created_cons ||
          rewrite created_nil);
  cbn [is_create_channel].

Lemma created_resolution (evs : list Event) :
  resolution_only evs -> created evs = 0.
Proof.
  unfold created. induction evs as [| e evs IH]; intros Hres;
    [reflexivity |].
  rewrite filter_cons.
  destruct (decide (is_create_channel e = true)) as [Hc | Hc].
  - destruct (Hres e) as [H | H]; [left | |];
      destruct e; discriminate.
  - apply IH. intros e' Hin. apply Hres. now right.
Qed.

(** ** The mutual-TLS branch *)

(** Unfold the monad and the small collaborators, and leave
    [create_channel] and the base constructor folded. *)
Ltac unfold_small :=
  unfold auth_default, load_credentials_from_file, default_ssl_credentials,
    ssl_channel_credentials, set_grpc_channel, set_stubs, set_host,
    set_credentials, getattr, put_self, get_self, emit, fresh, bind, ret,
    raise in *.

(** The mutual-TLS branch as a whole: every call takes the rewritten
    host, [create_channel] is called once at most, and a finished
    construction leaves the channel [create_channel] returned, built
    from the credentials, the credentials file, the scopes, the TLS
    credentials and the quota project of lines 159 to 166. *)
Lemma instantiate_mtls (env : Env) (a : InitArgs) (x : ascii) (e : string)
    (s : State) :
  channel a = None ->
  api_mtls_endpoint a = Some (String x e) ->
  let h :=
    if str_in ":" (String x e) then String x e else String x e ++ ":443" in
  let r := instantiate env a s in
  exists evs,
    trace (snd r) = (trace s ++ evs)%list /\
    hosts_are h evs /\
    created evs <= 1 /\
    (fst r = Ok tt ->
     exists ch c ssl,
       _grpc_channel (self (snd r)) = Some (Some ch) /\
       _stubs (self (snd r)) = Some ∅ /\
       _host (self (snd r)) = Some (stored_host env h) /\
       _credentials (self (snd r)) = Some (CredObj c) /\
       ch_args ch =
         forwarded_args env h (CredObj c) (credentials_file a)
           (Some (scopes_or_default env (scopes a))) (quota_project_id a)
           (Some ssl) /\
       EvCreateChannel h (CredObj c) (credentials_file a)
         (Some (scopes_or_default env (scopes a))) (quota_project_id a)
         (Some ssl) ∈ evs /\
       created evs = 1 /\
       match credentials a with
       | Some c' => c = c'
       | None =>
           ambient_credentials env (AUTH_SCOPES env) (quota_project_id a) =
             Some c
       end /\
       match client_cert_source a with
       | Some callback =>
           exists cert key,
             callback tt = Ok (cert, key) /\ ssl = SslFromCert cert key
       | None => platform_ssl_credentials env = Some ssl
       end).
Proof.
  intros Hch Hm h r. subst r.
  unfold instantiate, __init__. rewrite Hch, Hm.
  cbn -[create_channel AccessApprovalTransport.__init__ str_in String.append].
  fold h. unfold_small.
  cbn -[create_channel AccessApprovalTransport.__init__ str_in String.append].
  destruct (credentials a) as [c |];
    [| destruct (ambient_credentials env _ _) as [c |] eqn:Hamb];
    cbn -[create_channel AccessApprovalTransport.__init__ str_in String.append].
  3: { (* no ambient credentials: [auth.default] raises *)
       eexists. split; [reflexivity |].
       split; [such_hosts | split; [count_created; lia | discriminate]]. }
  all: destruct (client_cert_source a) as [cb |];
    [destruct (cb tt) as [[cert key] | err] eqn:Hcb
    | destruct (platform_ssl_credentials env) as [ssl |] eqn:Hssl];
    cbn -[create_channel AccessApprovalTransport.__init__ str_in
          String.append].
  all: try (eexists; rewrite <- ?app_assoc; cbn [app];
            split; [reflexivity |];
            split; [such_hosts | split; [count_created; lia | discriminate]]).
  all: match goal with
       | |- context [create_channel ?v ?h0 ?c0 ?f ?sc ?q ?ssl0 ?s0] =>
           pose proof (create_channel_run v h0 c0 f sc q ssl0 s0) as Hcc;
           cbv zeta in Hcc;
           destruct (create_channel v h0 c0 f sc q ssl0 s0)
             as [[ch | err] s1];
           cbn [fst snd self trace next_id] in Hcc;
           destruct Hcc as (Hself & (evs1 & Htr1 & Hres1) & Hok)
       end.
  all: cbn -[AccessApprovalTransport.__init__ str_in String.append].
  (* [create_channel] raised *)
  all: try (eexists; split;
            [rewrite Htr1, <- ?app_assoc; cbn [app]; reflexivity |];
            split; [hosts |];
            split; [count_created; rewrite (created_resolution evs1 Hres1);
                    lia | discriminate]).
  (* [create_channel] returned: the base constructor runs *)
  all: match goal with
       | |- context [AccessApprovalTransport.__init__ ?v ?h0 ?c0 ?f ?sc ?q
                       ?s0] =>
           pose proof (base_init_run v h0 c0 f sc q s0) as Hb;
           cbv zeta in Hb;
           destruct (AccessApprovalTransport.__init__ v h0 c0 f sc q s0)
             as [res s2];
           cbn [fst snd self trace next_id _grpc_channel _stubs _host
                _credentials] in Hb;
           destruct Hb as (Hb1 & Hb2 & Hb3 & Hb4 & (evs2 & Htr2 & Hres2) &
                           Hb5)
       end.
  all: cbn [fst snd].
  all: eexists; split;
    [rewrite Htr2, Htr1, <- ?app_assoc; cbn [app]; reflexivity |].
  all: split; [hosts |].
  all: split;
    [count_created;
     rewrite (created_resolution evs1 Hres1),
       (created_resolution evs2 Hres2); lia |].
  all: intros Hres; specialize (Hb5 Hres).
  all: destruct Hok as (Hargs & _).
  all: eexists ch, c, _.
  all: repeat split; try eassumption; try eauto.
  all: try (repeat (apply elem_of_cons; (left; reflexivity) || right)).
  all: count_created;
    rewrite (created_resolution evs1 Hres1), (created_resolution evs2 Hres2);
    reflexivity.
Qed.

(** C4.  For every construction with a mutual-TLS endpoint (a non-empty
    string, as line 136 tests it) and no channel: when the endpoint holds
    no [":"], the host every call of the construction takes, the target
    of the channel and the stored host are the endpoint followed by
    [":443"]; when it holds one, they are the endpoint itself. *)
Theorem mtls_endpoint_sets_host (env : Env) (a : InitArgs) (e : string)
    (s : State) :
  channel a = None ->
  api_mtls_endpoint a = Some e ->
  e <> "" ->
  let r := instantiate env a s in
  trace (snd r) = (trace s ++ events_since s (snd r))%list /\
  (~ has_port_separator e -> effective_host env s r (e ++ ":443")) /\
  (has_port_separator e -> effective_host env s r e).
Proof.
  intros Hch Hm Hne r. destruct e as [| x e]; [congruence |].
  destruct (instantiate_mtls env a x e s Hch Hm)
    as (evs & Htr & Hhosts & _ & Hok).
  fold r in Htr, Hok.
  rewrite (events_since_app s (snd r) evs Htr).
  split; [exact Htr |].
  assert (Heff : effective_host env s r
            (if str_in ":" (String x e) then String x e
             else String x e ++ ":443")).
  { split; [now rewrite (events_since_app s (snd r) evs Htr) |].
    intros Hres. destruct (Hok Hres)
      as (ch & c & ssl & H1 & _ & H3 & _ & H5 & _).
    exists ch. rewrite H5. auto. }
  unfold has_port_separator. rewrite <- str_in_colon.
  destruct (str_in ":" (String x e)); split; intros H;
    try exact Heff; congruence.
Qed.

(** C4 at an endpoint without a port. *)
Lemma mtls_endpoint_sets_host_witness :
  channel mtls_args = None /\
  api_mtls_endpoint mtls_args = Some "accessapproval.mtls.googleapis.com" /\
  "accessapproval.mtls.googleapis.com" <> "" /\
  effective_host env_full start (instantiate env_full mtls_args start)
    "accessapproval.mtls.googleapis.com:443" /\
  fst (instantiate env_full mtls_args start) = Ok tt.
Proof.
  split; [reflexivity |]. split; [reflexivity |].
  split; [discriminate |]. split; [| reflexivity].
  apply (mtls_endpoint_sets_host env_full mtls_args
           "accessapproval.mtls.googleapis.com" start eq_refl eq_refl);
    [discriminate |].
  unfold has_port_separator. cbn.
  intros H. repeat (destruct H as [H | H]; [discriminate H |]). exact H.
Defined.

(** An endpoint that names its port is taken as it is. *)
Example mtls_endpoint_with_port :
  held_channel
    (self (snd (instantiate env_full
                  (with_api_mtls_endpoint (Some "mtls.example.com:8443")
                     default_args) start))) =
    Some {| ch_id := 100;
            ch_args :=
              {| ca_target := "mtls.example.com:8443";
                 ca_credentials := CredObj (Cred 0);
                 ca_credentials_file := None;
                 ca_scopes := AUTH_SCOPES env_full;
                 ca_ssl_credentials := Some (SslDefault 0);
                 ca_quota_project_id := None |};
            ch_credentials := Cred 0 |}.
Proof. reflexivity. Qed.

(** An empty endpoint is no endpoint: the host is the caller's, and no
    channel is created during construction. *)
Example empty_mtls_endpoint :
  instantiate env_full (with_api_mtls_endpoint (Some "") default_args)
    start =
  instantiate env_full default_args start.
Proof. reflexivity. Qed.

(** C9 at a channel, an endpoint and a certificate callback. *)
Lemma channel_precedes_mtls_witness :
  channel channel_and_mtls_args = Some injected_channel /\
  api_mtls_endpoint channel_and_mtls_args =
    Some "accessapproval.mtls.googleapis.com" /\
  held_channel
    (self (snd (instantiate env_bare channel_and_mtls_args start))) =
    Some injected_channel.
Proof.
  split; [reflexivity | split; [reflexivity |]].
  pose proof (channel_precedes_mtls env_bare channel_and_mtls_args
                injected_channel "accessapproval.mtls.googleapis.com"
                start eq_refl eq_refl) as H.
  cbv zeta in H. destruct H as (_ & H & _).
  unfold held_channel. rewrite H. reflexivity.
Defined.

(** C10 at a channel, with and without credentials. *)
Lemma channel_discards_credentials_witness :
  channel (with_channel (Some injected_channel) default_args) =
    Some injected_channel /\
  instantiate env_full
    (with_credentials (Some (Cred 5))
       (with_channel (Some injected_channel) default_args)) start =
  instantiate env_full
    (with_credentials None
       (with_channel (Some injected_channel) default_args)) start.
Proof.
  split; [reflexivity |].
  apply (channel_discards_credentials env_full
           (with_channel (Some injected_channel) default_args)
           injected_channel (Some (Cred 5)) None start eq_refl).
Defined.

(** C1, as amended, at the default arguments with credentials and a file. *)
Lemma duplicate_credentials_rejected_witness :
  credentials duplicate_args = Some (Cred 5) /\
  credentials_file duplicate_args = Some "credentials.json" /\
  channel duplicate_args = None /\
  fst (instantiate env_full duplicate_args start) =
    Raise DuplicateCredentialArgs.
Proof.
  split; [reflexivity |]. split; [reflexivity |]. split; [reflexivity |].
  exact (proj1 (duplicate_credentials_rejected env_full duplicate_args
                  (Cred 5) "c" "redentials.json" start eq_refl eq_refl)
           eq_refl).
Defined.

(** ** Ambient credentials in the mutual-TLS branch *)

(** C7.  The mutual-TLS branch at work on a caller who asks for a scope of
    their own and supplies neither credentials, nor a credentials file,
    nor a channel: ambient discovery is called with the default scopes
    [AUTH_SCOPES] and never with the requested one. *)
Lemma mtls_discovery_uses_default_scopes :
  scopes scoped_mtls_args = Some read_only_scope /\
  credentials scoped_mtls_args = None /\
  credentials_file scoped_mtls_args = None /\
  channel scoped_mtls_args = None /\
  fst (instantiate env_full scoped_mtls_args start) = Ok tt /\
  EvAuthDefault (AUTH_SCOPES env_full) None ∈
    trace (snd (instantiate env_full scoped_mtls_args start)) /\
  (forall q,
     EvAuthDefault read_only_scope q ∉
       trace (snd (instantiate env_full scoped_mtls_args start))) /\
  AUTH_SCOPES env_full <> read_only_scope.
Proof.
  do 5 (split; [reflexivity |]).
  split; [vm_compute; apply elem_of_cons; now left |].
  split; [| discriminate].
  intros q Hin. vm_compute in Hin.
  repeat (apply elem_of_cons in Hin as [Hin | Hin]; [discriminate Hin |]).
  exact (proj1 (elem_of_nil _) Hin).
Qed.

(** ** The channel property *)

(** With a channel on the instance the property returns it and does
    nothing else. *)
Lemma grpc_channel_cached (env : Env) (s : State) (v : option Channel) :
  _grpc_channel (self s) = Some v ->
  grpc_channel env s = (Ok v, s).
Proof.
  intros H. unfold grpc_channel, getattr, get_self, bind, ret. cbn.
  rewrite H. cbn. rewrite H. reflexivity.
Qed.

(** Without one it calls [create_channel] with the stored host and
    credentials and nothing else, and keeps the result. *)
Lemma grpc_channel_first (env : Env) (s : State) (h : string)
    (c : Credentials) :
  _grpc_channel (self s) = None ->
  _host (self s) = Some h ->
  _credentials (self s) = Some (CredObj c) ->
  let ch :=
    {| ch_id := next_id s;
       ch_args := forwarded_args env h (CredObj c) None None None None;
       ch_credentials := c |} in
  grpc_channel env s =
    (Ok (Some ch),
     {| self :=
          {| _grpc_channel := Some (Some ch);
             _stubs := _stubs (self s);
             _host := Some h;
             _credentials := Some (CredObj c) |};
        trace :=
          trace s ++
          [EvCreateChannel h (CredObj c) None None None None;
           EvGrpcHelpersCreateChannel
             (forwarded_args env h (CredObj c) None None None None)];
        next_id := S (next_id s) |}).
Proof.
  intros Hn Hh Hc ch. unfold_py. cbn. rewrite Hn, Hh, Hc. cbn.
  rewrite <- app_assoc, ?Hh, ?Hc. reflexivity.
Qed.

Lemma keeps_refl (t : Transport) : keeps t t.
Proof.
  split; [auto |]. intros d H. exists d. split; [exact H | reflexivity].
Qed.

Lemma keeps_trans (t1 t2 t3 : Transport) :
  keeps t1 t2 -> keeps t2 t3 -> keeps t1 t3.
Proof.
  intros [Hc1 Hs1] [Hc2 Hs2]. split.
  - auto.
  - intros d Hd. destruct (Hs1 d Hd) as (d' & Hd' & Hsub).
    destruct (Hs2 d' Hd') as (d'' & Hd'' & Hsub').
    exists d''. split; [exact Hd'' | now transitivity d'].
Qed.

Lemma grpc_channel_ready (env : Env) (s : State) :
  ready (self s) ->
  exists ch s',
    grpc_channel env s = (Ok (Some ch), s') /\
    _grpc_channel (self s') = Some (Some ch) /\
    _stubs (self s') = _stubs (self s) /\
    ready (self s') /\
    keeps (self s) (self s') /\
    channels_created s' + pending (self s') =
      channels_created s + pending (self s).
Proof.
  intros [Hst [[ch Hch] | (Hn & h & c & Hh & Hc)]].
  - exists ch, s. rewrite (grpc_channel_cached env s _ Hch).
    repeat split; auto.
    + now left; exists ch.
    + intros d H; exists d; split; [exact H | reflexivity].
  - eexists _, _. rewrite (grpc_channel_first env s h c Hn Hh Hc).
    split; [reflexivity |]. cbn [self _grpc_channel _stubs].
    split; [reflexivity |]. split; [reflexivity |].
    split; [split; [exact Hst | left; eexists; reflexivity] |].
    split.
    + split; [intros v Hv; congruence |].
      intros d H; exists d; split; [exact H | reflexivity].
    + unfold channels_created, pending. cbn [trace self _grpc_channel].
      rewrite Hn. count_created. lia.
Qed.

(** ** The stub properties *)

Lemma stub_is_property (env : Env) (op : Operation) :
  stub env op =
    stub_property env (stub_key op) (method_path op) (request_serializer op)
      (response_deserializer op).
Proof. destruct op; reflexivity. Qed.

Lemma stub_key_inj (op1 op2 : Operation) :
  stub_key op1 = stub_key op2 -> op1 = op2.
Proof. destruct op1, op2; intros H; try reflexivity; discriminate H. Qed.

(** With an entry in the table the property returns it and does nothing
    else. *)
Lemma stub_property_cached (env : Env) (key path rs rd : string)
    (s : State) (d : gmap string Stub) (f : Stub) :
  _stubs (self s) = Some d ->
  d !! key = Some f ->
  stub_property env key path rs rd s = (Ok f, s).
Proof.
  intros Hd Hk. unfold stub_property, getattr, get_self, bind, ret. cbn.
  rewrite Hd. cbn. rewrite Hk. cbn. rewrite Hd. cbn. rewrite Hk.
  reflexivity.
Qed.

(** Without one it reads the channel, binds a new callable to it, stores
    it under the key and returns it. *)
Lemma stub_property_first (env : Env) (key path rs rd : string)
    (s s1 : State) (d : gmap string Stub) (ch : Channel) :
  _stubs (self s) = Some d ->
  d !! key = None ->
  grpc_channel env s = (Ok (Some ch), s1) ->
  _stubs (self s1) = Some d ->
  let f :=
    {| stub_id := next_id s1; stub_channel := ch_id ch; stub_path := path;
       stub_request_serializer := rs; stub_response_deserializer := rd |} in
  stub_property env key path rs rd s =
    (Ok f,
     {| self :=
          {| _grpc_channel := _grpc_channel (self s1);
             _stubs := Some (<[key := f]> d);
             _host := _host (self s1);
             _credentials := _credentials (self s1) |};
        trace := trace s1 ++ [EvUnaryUnary (ch_id ch) path];
        next_id := S (next_id s1) |}).
Proof.
  intros Hd Hk Hgc Hd1 f.
  unfold stub_property, getattr, get_self, bind, ret. cbn -[grpc_channel].
  rewrite Hd. cbn -[grpc_channel]. rewrite Hk, Hgc.
  unfold unary_unary, set_stubs, emit, fresh, put_self, get_self, bind, ret.
  cbn. rewrite Hd1. cbn. fold f. rewrite lookup_insert_eq. reflexivity.
Qed.

Lemma stub_ready (env : Env) (op : Operation) (s : State) :
  ready (self s) ->
  exists f s',
    stub env op s = (Ok f, s') /\
    cached_stub (self s') op = Some f /\
    stub_path f = method_path op /\
    ready (self s') /\
    keeps (self s) (self s') /\
    channels_created s' + pending (self s') =
      channels_created s + pending (self s) /\
    (cached_stub (self s) op = None ->
     exists ch,
       held_channel (self s') = Some ch /\
       stub_channel f = ch_id ch /\
       last (trace s') = Some (EvUnaryUnary (ch_id ch) (method_path op)) /\
       next_id s' = S (stub_id f)) /\
    (forall d, _stubs (self s) = Some d ->
     exists d',
       _stubs (self s') = Some d' /\ dom d' = {[stub_key op]} ∪ dom d).
Proof.
  intros Hr. pose proof Hr as [(d & Hd & Hwf) _].
  rewrite stub_is_property.
  destruct (d !! stub_key op) as [f |] eqn:Hk.
  - exists f, s.
    rewrite (stub_property_cached env _ _ _ _ s d f Hd Hk).
    unfold cached_stub. rewrite Hd.
    split; [reflexivity |]. split; [exact Hk |].
    split; [exact (Hwf op f Hk) |]. split; [exact Hr |].
    split; [apply keeps_refl |]. split; [reflexivity |].
    split; [rewrite Hk; discriminate |].
    intros d0 Hd0. injection Hd0 as <-.
    exists d. split; [reflexivity |].
    apply (elem_of_dom_2 (D := gset string)) in Hk.
    symmetry. apply subseteq_union_1_L. now apply singleton_subseteq_l.
  - destruct (grpc_channel_ready env s Hr)
      as (ch & s1 & Hgc & Hch1 & Hst1 & Hr1 & Hkeep1 & Hpot1).
    rewrite Hd in Hst1.
    eexists _, _.
    rewrite (stub_property_first env _ _ _ _ s s1 d ch Hd Hk Hgc Hst1).
    split; [reflexivity |].
    unfold cached_stub. cbn [self _stubs _grpc_channel stub_path].
    split; [apply lookup_insert_eq |]. split; [reflexivity |].
    split; [| split].
    + split.
      * eexists. split; [reflexivity |]. intros op' f' Hl.
        destruct (decide (stub_key op = stub_key op')) as [He | Hne].
        -- rewrite He, lookup_insert_eq in Hl.
           injection Hl as <-. cbn. now rewrite (stub_key_inj _ _ He).
        -- rewrite lookup_insert_ne in Hl by exact Hne. eauto.
      * left. exists ch. exact Hch1.
    + split.
      * intros v Hv. apply Hkeep1 in Hv. exact Hv.
      * intros d0 Hd0. rewrite Hd in Hd0. injection Hd0 as <-.
        eexists. split; [reflexivity |]. now apply insert_subseteq.
    + split.
      * rewrite <- Hpot1. unfold channels_created, pending.
        cbn [trace self _grpc_channel]. count_created. lia.
      * split.
        -- intros _. exists ch. unfold held_channel.
           cbn [self _grpc_channel trace next_id stub_channel stub_id].
           rewrite Hch1, last_snoc. auto.
        -- intros d0 Hd0. rewrite Hd in Hd0. injection Hd0 as <-.
           eexists. split; [reflexivity |]. apply dom_insert_L.
Qed.

Lemma stub_cached (env : Env) (op : Operation) (s : State) (f : Stub) :
  cached_stub (self s) op = Some f ->
  stub env op s = (Ok f, s).
Proof.
  unfold cached_stub. destruct (_stubs (self s)) as [d |] eqn:Hd;
    [| discriminate].
  intros Hk. rewrite stub_is_property.
  exact (stub_property_cached env _ _ _ _ s d f Hd Hk).
Qed.

(** ** Any sequence of reads *)

Lemma access_ready (env : Env) (x : Access) (s : State) :
  ready (self s) ->
  exists s',
    access env x s = (Ok tt, s') /\
    ready (self s') /\
    keeps (self s) (self s') /\
    channels_created s' + pending (self s') =
      channels_created s + pending (self s).
Proof.
  intros Hr. destruct x as [| op]; unfold access; rewrite bind_run.
  - destruct (grpc_channel_ready env s Hr)
      as (ch & s' & Hgc & _ & _ & Hr' & Hk & Hp).
    exists s'. rewrite Hgc. auto.
  - destruct (stub_ready env op s Hr)
      as (f & s' & Hst & _ & _ & Hr' & Hk & Hp & _ & _).
    exists s'. rewrite Hst. auto.
Qed.

Lemma accesses_ready (env : Env) (l : list Access) (s : State) :
  ready (self s) ->
  exists s',
    accesses env l s = (Ok tt, s') /\
    ready (self s') /\
    keeps (self s) (self s') /\
    channels_created s' + pending (self s') =
      channels_created s + pending (self s).
Proof.
  revert s. induction l as [| x l IH]; intros s Hr.
  - exists s. cbn. auto using keeps_refl.
  - destruct (access_ready env x s Hr) as (s1 & Hx & Hr1 & Hk1 & Hp1).
    destruct (IH s1 Hr1) as (s2 & Hl & Hr2 & Hk2 & Hp2).
    exists s2. cbn [accesses]. rewrite bind_run, Hx.
    split; [exact Hl |]. split; [exact Hr2 |].
    split; [eapply keeps_trans; eassumption | lia].
Qed.

(** ** Construction without a channel or an endpoint *)

Lemma instantiate_plain (env : Env) (a : InitArgs) (s : State) :
  channel a = None ->
  str_truthy (api_mtls_endpoint a) = false ->
  let r := instantiate env a s in
  _grpc_channel (self (snd r)) = None /\
  _stubs (self (snd r)) = Some ∅ /\
  _host (self (snd r)) = Some (stored_host env (host a)) /\
  next_id (snd r) = next_id s /\
  (exists evs,
     trace (snd r) =
       (trace s ++
        EvBaseInit (host a) (cred_arg (credentials a)) (credentials_file a)
          (scopes_or_default env (scopes a)) (quota_project_id a) ::
        evs)%list /\
     resolution_only evs) /\
  (fst r = Ok tt ->
   exists o, _credentials (self (snd r)) = Some (CredObj o)).
Proof.
  intros Hch Hm r. subst r. unfold instantiate, __init__.
  rewrite Hch, Hm.
  cbn -[AccessApprovalTransport.__init__]. unfold_small.
  cbn -[AccessApprovalTransport.__init__].
  match goal with
  | |- context [AccessApprovalTransport.__init__ ?v ?h0 ?c0 ?f ?sc ?q ?s0] =>
      pose proof (base_init_run v h0 c0 f sc q s0) as Hb;
      cbv zeta in Hb;
      destruct (AccessApprovalTransport.__init__ v h0 c0 f sc q s0)
        as [res s2];
      cbn [fst snd self trace next_id _grpc_channel _stubs _host
           _credentials] in Hb;
      destruct Hb as (Hb1 & Hb2 & Hb3 & Hb4 & Hb5 & Hb6)
  end.
  cbn [fst snd]. repeat split; try assumption.
  intros Hres. specialize (Hb6 Hres).
  destruct (credentials a); cbn in Hb6; eauto.
Qed.

Lemma stubs_wf_empty : stubs_wf ∅.
Proof. intros op f H. rewrite lookup_empty in H. discriminate H. Qed.

(** A finished construction leaves an instance that is ready, with an
    empty dispatch table, and has called [create_channel] at most once. *)
Lemma instantiate_ready (env : Env) (a : InitArgs) (s : State) :
  let r := instantiate env a s in
  fst r = Ok tt ->
  ready (self (snd r)) /\
  _stubs (self (snd r)) = Some ∅ /\
  channels_created (snd r) + pending (self (snd r)) <=
    channels_created s + 1.
Proof.
  intros r Hok. subst r.
  destruct (channel a) as [ch |] eqn:Hch.
  - rewrite (instantiate_with_channel env a ch s Hch) in *.
    cbn [fst snd self _stubs _grpc_channel].
    split; [| split; [reflexivity |]].
    + split; [exists ∅; split; [reflexivity | apply stubs_wf_empty] |].
      left. now exists ch.
    + unfold channels_created, pending.
      cbn [trace self _grpc_channel]. count_created. lia.
  - destruct (str_truthy (api_mtls_endpoint a)) eqn:Hm.
    + destruct (api_mtls_endpoint a) as [[| x e] |] eqn:He;
        try discriminate Hm.
      destruct (instantiate_mtls env a x e s Hch He)
        as (evs & Htr & _ & _ & Hsucc).
      destruct (Hsucc Hok)
        as (ch & c & ssl & H1 & H2 & _ & _ & _ & _ & Hcount & _).
      split; [| split; [exact H2 |]].
      * split; [exists ∅; split; [exact H2 | apply stubs_wf_empty] |].
        left. now exists ch.
      * unfold channels_created, pending. rewrite Htr, H1.
        count_created. lia.
    + destruct (instantiate_plain env a s Hch Hm)
        as (H1 & H2 & H3 & _ & (evs & Htr & Hres) & Hsucc).
      destruct (Hsucc Hok) as (o & Ho).
      split; [| split; [exact H2 |]].
      * split; [exists ∅; split; [exact H2 | apply stubs_wf_empty] |].
        right. split; [exact H1 |]. eauto.
      * unfold channels_created, pending. rewrite Htr, H1.
        count_created. rewrite (created_resolution evs Hres). lia.
Qed.

(** ** The claims about the lifetime of an instance *)

(** C8.  An instance holds at most one channel for its lifetime.  After a
    finished construction and any sequence of reads [l1], the channel
    property returns a channel that is not [None]; if the instance held
    a channel already the property returns that one and changes nothing,
    and only if it held none is [create_channel] called, once; after any
    further reads [l2] the instance still holds that same channel, the
    property returns it without changing anything, and [create_channel]
    has been called at most once since before the construction. *)
Theorem one_channel_per_instance (env : Env) (a : InitArgs) (s : State) :
  fst (instantiate env a s) = Ok tt ->
  let s0 := snd (instantiate env a s) in
  forall l1, exists s1 ch s1',
    accesses env l1 s0 = (Ok tt, s1) /\
    grpc_channel env s1 = (Ok (Some ch), s1') /\
    (forall v, _grpc_channel (self s1) = Some v ->
               v = Some ch /\ s1' = s1) /\
    (_grpc_channel (self s1) = None ->
     channels_created s1' = channels_created s1 + 1) /\
    forall l2, exists s2,
      accesses env l2 s1' = (Ok tt, s2) /\
      _grpc_channel (self s2) = Some (Some ch) /\
      grpc_channel env s2 = (Ok (Some ch), s2) /\
      channels_created s2 <= channels_created s + 1.
Proof.
  intros Hok s0 l1.
  destruct (instantiate_ready env a s Hok) as (Hr0 & _ & Hp0).
  fold s0 in Hr0, Hp0.
  destruct (accesses_ready env l1 s0 Hr0) as (s1 & Hl1 & Hr1 & _ & Hp1).
  destruct (grpc_channel_ready env s1 Hr1)
    as (ch & s1' & Hgc & Hch & _ & Hr1' & _ & Hp1').
  exists s1, ch, s1'. split; [exact Hl1 |]. split; [exact Hgc |].
  assert (Hpend : pending (self s1') = 0)
    by (unfold pending; now rewrite Hch).
  split; [| split].
  - intros v Hv. rewrite (grpc_channel_cached env s1 v Hv) in Hgc.
    injection Hgc as -> ->. auto.
  - intros Hn. unfold pending in Hp1' at 2. rewrite Hn in Hp1'. lia.
  - intros l2.
    destruct (accesses_ready env l2 s1' Hr1')
      as (s2 & Hl2 & _ & [Hk2 _] & Hp2).
    exists s2. split; [exact Hl2 |].
    pose proof (Hk2 _ Hch) as Hch2.
    split; [exact Hch2 |].
    split; [exact (grpc_channel_cached env s2 _ Hch2) |]. lia.
Qed.

(** C2.  For every instance and every operation: the dispatch table is
    empty after construction; a read of the stub property, after any
    sequence of reads [l1], returns a callable that is then stored under
    the operation's key; if an entry was stored already the read returns
    it and changes nothing, and only if there was none is a new callable
    bound to the instance's channel; after any further reads [l2] the
    table still holds that same callable and the property returns it
    without changing anything. *)
Theorem stub_is_cached (env : Env) (a : InitArgs) (s : State) :
  fst (instantiate env a s) = Ok tt ->
  let s0 := snd (instantiate env a s) in
  (forall op, cached_stub (self s0) op = None) /\
  forall op l1, exists s1 f s1',
    accesses env l1 s0 = (Ok tt, s1) /\
    stub env op s1 = (Ok f, s1') /\
    cached_stub (self s1') op = Some f /\
    (forall g, cached_stub (self s1) op = Some g -> g = f /\ s1' = s1) /\
    (cached_stub (self s1) op = None ->
     exists ch,
       held_channel (self s1') = Some ch /\
       stub_channel f = ch_id ch /\
       last (trace s1') = Some (EvUnaryUnary (ch_id ch) (method_path op)) /\
       next_id s1' = S (stub_id f)) /\
    forall l2, exists s2,
      accesses env l2 s1' = (Ok tt, s2) /\
      cached_stub (self s2) op = Some f /\
      stub env op s2 = (Ok f, s2).
Proof.
  intros Hok s0.
  destruct (instantiate_ready env a s Hok) as (Hr0 & Hempty & _).
  fold s0 in Hr0, Hempty. split.
  { intros op. unfold cached_stub. rewrite Hempty. apply lookup_empty. }
  intros op l1.
  destruct (accesses_ready env l1 s0 Hr0) as (s1 & Hl1 & Hr1 & _ & _).
  destruct (stub_ready env op s1 Hr1)
    as (f & s1' & Hst & Hc & _ & Hr1' & _ & _ & Hnew & _).
  exists s1, f, s1'. split; [exact Hl1 |]. split; [exact Hst |].
  split; [exact Hc |]. split; [| split; [exact Hnew |]].
  - intros g Hg. rewrite (stub_cached env op s1 g Hg) in Hst.
    injection Hst as -> ->. auto.
  - intros l2.
    destruct (accesses_ready env l2 s1' Hr1')
      as (s2 & Hl2 & _ & [_ Hk2] & _).
    exists s2. split; [exact Hl2 |].
    assert (Hc2 : cached_stub (self s2) op = Some f).
    { unfold cached_stub in *.
      destruct (_stubs (self s1')) as [d |] eqn:Hd; [| discriminate].
      destruct (Hk2 d eq_refl) as (d' & Hd' & Hsub).
      rewrite Hd'. exact (lookup_weaken _ _ _ _ Hc Hsub). }
    split; [exact Hc2 | exact (stub_cached env op s2 f Hc2)].
Qed.

(** Reading a list of stub properties leaves exactly their keys, next to
    the ones that were there, in the dispatch table. *)
Lemma read_stubs_dom (env : Env) (l : list Operation) (s : State)
    (d : gmap string Stub) :
  ready (self s) ->
  _stubs (self s) = Some d ->
  exists s' d',
    accesses env (ReadStub <$> l) s = (Ok tt, s') /\
    _stubs (self s') = Some d' /\
    dom d' = list_to_set (stub_key <$> l) ∪ dom d.
Proof.
  revert s d. induction l as [| op l IH]; intros s d Hr Hd.
  - exists s, d. cbn. split; [reflexivity |]. split; [exact Hd |].
    now rewrite (left_id_L ∅ (∪)).
  - destruct (stub_ready env op s Hr)
      as (f & s1 & Hst & _ & _ & Hr1 & _ & _ & _ & Hdom).
    destruct (Hdom d Hd) as (d1 & Hd1 & Hdom1).
    destruct (IH s1 d1 Hr1 Hd1) as (s2 & d2 & Hl & Hd2 & Hdom2).
    exists s2, d2. cbn [fmap list_fmap accesses access].
    rewrite !bind_run, Hst. cbn [ret].
    split; [exact Hl |]. split; [exact Hd2 |].
    rewrite Hdom2, Hdom1. cbn [fmap list_fmap list_to_set].
    rewrite (assoc_L (∪)).
    now rewrite (comm_L (∪) (list_to_set (stub_key <$> l)) {[stub_key op]}).
Qed.

(** ** Ambient credentials outside the mutual-TLS branch *)

(** With no channel, no endpoint, no credentials and no credentials file
    the only calls are the base constructor's and its discovery of
    ambient credentials, with the scopes the caller asked for or, when
    there are none, the default ones; without ambient credentials the
    construction ends in the authentication error. *)
Lemma plain_discovery_uses_requested_scopes (env : Env) (a : InitArgs)
    (s : State) :
  channel a = None ->
  str_truthy (api_mtls_endpoint a) = false ->
  credentials a = None ->
  credentials_file a = None ->
  let r := instantiate env a s in
  trace (snd r) =
    (trace s ++
     [EvBaseInit (host a) CredNone None (scopes_or_default env (scopes a))
        (quota_project_id a);
      EvAuthDefault (scopes_or_default env (scopes a))
        (quota_project_id a)])%list /\
  fst r =
    match
      ambient_credentials env (scopes_or_default env (scopes a))
        (quota_project_id a)
    with
    | Some _ => Ok tt
    | None => Raise DefaultCredentialsError
    end.
Proof.
  intros Hch Hm Hc Hf r. subst r. unfold_py. cbn.
  rewrite Hch, Hm, Hc, Hf. cbn.
  destruct (ambient_credentials env _ _); cbn;
    rewrite <- app_assoc; split; reflexivity.
Qed.

(** C8 at the default arguments with ambient credentials. *)
Lemma one_channel_per_instance_witness :
  fst (instantiate env_full default_args start) = Ok tt /\
  exists ch s1,
    grpc_channel env_full (snd (instantiate env_full default_args start)) =
      (Ok (Some ch), s1) /\
    grpc_channel env_full s1 = (Ok (Some ch), s1).
Proof.
  split; [reflexivity |].
  destruct (one_channel_per_instance env_full default_args start eq_refl [])
    as (s1 & ch & s1' & Hl1 & Hgc & _ & _ & Hl2).
  cbn [accesses ret] in Hl1. injection Hl1 as <-.
  destruct (Hl2 []) as (s2 & Hacc & _ & Hgc2 & _).
  cbn [accesses ret] in Hacc. injection Hacc as <-.
  exists ch, s1'. split; [exact Hgc | exact Hgc2].
Defined.

(** C2 at the default arguments with ambient credentials. *)
Lemma stub_is_cached_witness :
  fst (instantiate env_full default_args start) = Ok tt /\
  exists f s1,
    stub env_full ApproveApprovalRequest
      (snd (instantiate env_full default_args start)) = (Ok f, s1) /\
    stub env_full ApproveApprovalRequest s1 = (Ok f, s1).
Proof.
  split; [reflexivity |].
  destruct (proj2 (stub_is_cached env_full default_args start eq_refl)
              ApproveApprovalRequest [])
    as (s1 & f & s1' & Hl1 & Hst & _ & _ & _ & Hl2).
  cbn [accesses ret] in Hl1. injection Hl1 as <-.
  destruct (Hl2 []) as (s2 & Hacc & _ & Hst2).
  cbn [accesses ret] in Hacc. injection Hacc as <-.
  exists f, s1'. split; [exact Hst | exact Hst2].
Defined.

(** ** The dispatch entries and their method paths *)

(** C5 does not hold as stated: the stub properties are seven, and an
    instance whose every stub property was read holds seven entries,
    not six. *)
Lemma seven_dispatch_entries :
  length all_operations <> 6 /\
  dispatch_entries (after_reading_every_stub env_full default_args start) <>
    Some 6.
Proof. split; vm_compute; discriminate. Qed.

Lemma every_stub_read (env : Env) (a : InitArgs) (s : State) :
  fst (instantiate env a s) = Ok tt ->
  dispatch_entries (after_reading_every_stub env a s) = Some 7.
Proof.
  intros Hok. destruct (instantiate_ready env a s Hok) as (Hr & Hempty & _).
  unfold after_reading_every_stub. rewrite bind_run.
  destruct (instantiate env a s) as [[[] | err] s0]; [| discriminate Hok].
  cbn [snd] in Hr, Hempty.
  destruct (read_stubs_dom env all_operations s0 ∅ Hr Hempty)
    as (s1 & d1 & Hl & Hd1 & Hdom).
  rewrite Hl. cbn [snd]. unfold dispatch_entries. rewrite Hd1. f_equal.
  rewrite <- size_dom, Hdom. vm_compute. reflexivity.
Qed.

(** C5, as amended.  The class has exactly seven stub properties; each
    passes to [unary_unary] a method path that is the service prefix
    [/google.cloud.accessapproval.v1.AccessApproval/] followed by the
    operation name, which is the key in [CamelCase], not empty and free
    of ["/"]; no two operations share a path or a key; and an instance
    whose every stub property was read holds seven dispatch entries. *)
Theorem method_paths_distinct :
  (length all_operations = 7 /\ NoDup all_operations /\
   forall op, op ∈ all_operations) /\
  (forall env op,
     stub env op =
       stub_property env (stub_key op) (method_path op)
         (request_serializer op) (response_deserializer op)) /\
  (forall op,
     method_path op = service_prefix ++ operation_name op /\
     operation_name op = camel_case (stub_key op) /\
     operation_name op <> "" /\
     ~ In "/"%char (String.list_ascii_of_string (operation_name op))) /\
  (forall op1 op2, method_path op1 = method_path op2 -> op1 = op2) /\
  (forall op1 op2, stub_key op1 = stub_key op2 -> op1 = op2) /\
  (forall env a s,
     fst (instantiate env a s) = Ok tt ->
     dispatch_entries (after_reading_every_stub env a s) = Some 7).
Proof.
  split; [split; [reflexivity | split] |].
  - apply (bool_decide_unpack _). vm_compute. exact I.
  - intros op. destruct op; apply (bool_decide_unpack _); vm_compute; exact I.
  - split; [exact stub_is_property |]. split; [| split; [| split]].
    + intros op. destruct op; repeat split; try discriminate;
        vm_compute; intros H;
        repeat (destruct H as [H | H]; [discriminate H |]); exact H.
    + intros op1 op2. destruct op1, op2; intros H;
        try reflexivity; discriminate H.
    + exact stub_key_inj.
    + exact every_stub_read.
Qed.

(** C5, as amended, at the default arguments. *)
Lemma method_paths_distinct_witness :
  fst (instantiate env_full default_args start) = Ok tt /\
  dispatch_entries (after_reading_every_stub env_full default_args start) =
    Some 7.
Proof.
  split; [reflexivity |].
  exact (proj2 (proj2 (proj2 (proj2 (proj2 method_paths_distinct))))
           env_full default_args start eq_refl).
Defined.

(** ** The two ways to a channel *)

(** C6 does not hold as stated: for the same arguments, with and without
    the endpoint, the eagerly and the lazily created channel differ in
    scopes, TLS credentials and quota project. *)
Lemma eager_and_lazy_configurations_differ :
  exists ch1 ch2,
    eager_channel env_full billed_mtls_args start = Some ch1 /\
    lazy_channel env_full (with_api_mtls_endpoint None billed_mtls_args)
      start = Some ch2 /\
    channel_configuration ch1 <> channel_configuration ch2.
Proof.
  eexists _, _. split; [vm_compute; reflexivity |].
  split; [vm_compute; reflexivity |].
  vm_compute. discriminate.
Qed.

(** C6, as amended.  With no channel supplied, the channel the
    constructor creates in the mutual-TLS branch and the channel the
    first read of [grpc_channel] creates both come from one call of
    [create_channel], with different arguments.  The first call passes
    the endpoint, with [":443"] appended when it has no port, the
    credentials supplied or else discovered with the default scopes, the
    caller's credentials file, the caller's scopes or the default ones,
    the TLS credentials built from what the certificate callback returned
    or else the platform's, and the quota project.  The second passes
    the stored host and the stored credentials only, so that the channel
    has no credentials file, the default scopes, no TLS credentials and
    no quota project. *)
Theorem eager_and_lazy_channel_arguments (env : Env) (a : InitArgs)
    (s : State) :
  channel a = None ->
  (forall ch,
     str_truthy (api_mtls_endpoint a) = true ->
     eager_channel env a s = Some ch ->
     exists e c ssl,
       api_mtls_endpoint a = Some e /\
       (has_port_separator e -> ca_target (ch_args ch) = e) /\
       (~ has_port_separator e -> ca_target (ch_args ch) = e ++ ":443") /\
       match credentials a with
       | Some c' => c = c'
       | None =>
           ambient_credentials env (AUTH_SCOPES env) (quota_project_id a) =
             Some c
       end /\
       match client_cert_source a with
       | Some callback =>
           exists cert key,
             callback tt = Ok (cert, key) /\ ssl = SslFromCert cert key
       | None => platform_ssl_credentials env = Some ssl
       end /\
       EvCreateChannel (ca_target (ch_args ch)) (CredObj c)
         (credentials_file a) (Some (scopes_or_default env (scopes a)))
         (quota_project_id a) (Some ssl)
         ∈ events_since s (snd (instantiate env a s)) /\
       created (events_since s (snd (instantiate env a s))) = 1 /\
       ch_args ch =
         forwarded_args env (ca_target (ch_args ch)) (CredObj c)
           (credentials_file a) (Some (scopes_or_default env (scopes a)))
           (quota_project_id a) (Some ssl) /\
       channel_configuration ch =
         (CredObj c, credentials_file a, scopes_or_default env (scopes a),
          Some ssl, quota_project_id a)) /\
  (forall ch,
     str_truthy (api_mtls_endpoint a) = false ->
     lazy_channel env a s = Some ch ->
     exists h c,
       _host (self (snd (instantiate env a s))) = Some h /\
       _credentials (self (snd (instantiate env a s))) = Some (CredObj c) /\
       EvCreateChannel h (CredObj c) None None None None
         ∈ events_since s
             (snd ((instantiate env a ;;; grpc_channel env) s)) /\
       created
         (events_since s
            (snd ((instantiate env a ;;; grpc_channel env) s))) = 1 /\
       ch_args ch = forwarded_args env h (CredObj c) None None None None /\
       channel_configuration ch =
         (CredObj c, None, AUTH_SCOPES env, None, None)).
Proof.
  intros Hch. split.
  - intros ch Hm. unfold eager_channel.
    destruct (api_mtls_endpoint a) as [[| x e] |] eqn:He;
      try discriminate Hm.
    destruct (instantiate_mtls env a x e s Hch He)
      as (evs & Htr & _ & _ & Hsucc).
    rewrite (events_since_app _ _ _ Htr).
    destruct (instantiate env a s) as [[[] | err] s0]; [| discriminate].
    cbn [fst snd] in Hsucc.
    destruct (Hsucc eq_refl)
      as (ch' & c & ssl & H1 & _ & _ & _ & H5 & H6 & H7 & H8 & H9).
    unfold held_channel. rewrite H1. intros [= <-].
    assert (Ht : ca_target (ch_args ch') =
                 if str_in ":" (String x e) then String x e
                 else String x e ++ ":443") by now rewrite H5.
    exists (String x e), c, ssl. split; [reflexivity |].
    unfold has_port_separator. rewrite <- str_in_colon.
    split; [intros Hin; now rewrite Hin in Ht |].
    split; [intros Hin; destruct (str_in ":" (String x e));
            [now destruct Hin | exact Ht] |].
    split; [exact H8 |]. split; [exact H9 |].
    rewrite Ht. split; [exact H6 |]. split; [exact H7 |].
    split; [exact H5 |].
    unfold channel_configuration. rewrite H5. unfold forwarded_args.
    cbn [ca_credentials ca_credentials_file ca_scopes ca_ssl_credentials
         ca_quota_project_id].
    now rewrite scopes_or_default_idem.
  - intros ch Hm. unfold lazy_channel. rewrite bind_run.
    destruct (instantiate_plain env a s Hch Hm)
      as (H1 & _ & H3 & _ & (evs & Htr & Hres) & Hsucc).
    destruct (instantiate env a s) as [[[] | err] s0]; [| discriminate].
    cbn [fst snd] in *.
    destruct (Hsucc eq_refl) as (o & Ho).
    rewrite (grpc_channel_first env s0 _ o H1 H3 Ho).
    intros [= <-]. eexists _, o. cbn [snd trace].
    split; [exact H3 |]. split; [exact Ho |].
    rewrite Htr, <- app_assoc. erewrite events_since_app by reflexivity.
    split.
    { apply elem_of_app. right. apply elem_of_cons. now left. }
    split; [| split; reflexivity].
    rewrite <- app_comm_cons. count_created.
    rewrite (created_resolution evs Hres). reflexivity.
Qed.

(** C6, as amended, at an endpoint with scopes and a quota project. *)
Lemma eager_and_lazy_channel_arguments_witness :
  channel billed_mtls_args = None /\
  exists ch c ssl,
    eager_channel env_full billed_mtls_args start = Some ch /\
    ca_target (ch_args ch) = "accessapproval.mtls.googleapis.com:443" /\
    channel_configuration ch =
      (CredObj c, None, read_only_scope, Some ssl, Some "billing-project").
Proof.
  split; [reflexivity |].
  destruct (proj1 (eager_and_lazy_channel_arguments env_full
                     billed_mtls_args start eq_refl)
              _ eq_refl eq_refl)
    as (e & c & ssl & He & _ & Hport & _ & _ & _ & _ & _ & Hcfg).
  injection He as <-.
  eexists _, c, ssl. split; [reflexivity |]. split; [| exact Hcfg].
  apply Hport. unfold has_port_separator. cbn.
  intros H. repeat (destruct H as [H | H]; [discriminate H |]). exact H.
Defined.

(** * Further properties *)

(** ** Lists of events *)

Lemma not_called_nil (c : Callee) : not_called c [].
Proof. intros e H. now apply elem_of_nil in H. Qed.

Lemma not_called_cons (c : Callee) (e : Event) (l : list Event) :
  callee e <> c -> not_called c l -> not_called c (e :: l).
Proof.
  intros He Hl e' Hin.
  apply elem_of_cons in Hin as [-> | Hin]; [exact He | now apply Hl].
Qed.

Lemma not_called_app (c : Callee) (l1 l2 : list Event) :
  not_called c l1 -> not_called c l2 -> not_called c (l1 ++ l2).
Proof.
  intros H1 H2 e Hin.
  apply elem_of_app in Hin as [Hin | Hin]; [now apply H1 | now apply H2].
Qed.

Lemma not_called_resolution (c : Callee) (evs : list Event) :
  c <> AuthDefault -> c <> LoadCredentialsFromFile ->
  resolution_only evs -> not_called c evs.
Proof.
  intros H1 H2 Hres e Hin. destruct (Hres e Hin); congruence.
Qed.

(** No call of a list built from conses, appends and credential lookups
    goes to the callee. *)
Ltac no_call :=
  repeat first
    [ apply not_called_nil
    | apply not_called_resolution; [discriminate | discriminate | assumption]
    | apply not_called_cons; [discriminate |]
    | apply not_called_app ].

(** ** Arguments that play no part *)

(** X1.  The certificate callback is ignored unless a mutual-TLS endpoint
    is given (lines 116 to 119 say so, lines 136 and 150 do it): without
    an endpoint two constructions that differ in [client_cert_source]
    only run identically, and the callback is not invoked. *)
Theorem client_cert_source_needs_endpoint (env : Env) (a : InitArgs)
    (cb1 cb2 : option (unit -> Res (list byte * list byte))) (s : State) :
  str_truthy (api_mtls_endpoint a) = false ->
  instantiate env (with_client_cert_source cb1 a) s =
    instantiate env (with_client_cert_source cb2 a) s /\
  not_called ClientCertSource
    (events_since s (snd (instantiate env (with_client_cert_source cb1 a) s))).
Proof.
  intros Hm.
  assert (Heq : forall cb,
             instantiate env (with_client_cert_source cb a) s =
             instantiate env a s).
  { intros cb. unfold instantiate, __init__. cbn [with_client_cert_source
      host credentials credentials_file scopes channel api_mtls_endpoint
      client_cert_source quota_project_id].
    rewrite Hm. destruct (obj_truthy (channel a)); reflexivity. }
  split; [now rewrite !Heq |]. rewrite Heq.
  destruct (channel a) as [ch |] eqn:Hch.
  - rewrite (instantiate_with_channel env a ch s Hch). cbn [snd].
    erewrite events_since_app by reflexivity. no_such_call.
  - destruct (instantiate_plain env a s Hch Hm)
      as (_ & _ & _ & _ & (evs & Htr & Hres) & _).
    rewrite (events_since_app _ _ _ Htr).
    intros e Hin. apply elem_of_cons in Hin as [-> | Hin]; [discriminate |].
    destruct (Hres e Hin) as [H | H]; rewrite H; discriminate.
Qed.

(** X1 at the default arguments, with a callback that would fail. *)
Lemma client_cert_source_needs_endpoint_witness :
  str_truthy (api_mtls_endpoint default_args) = false /\
  instantiate env_full
    (with_client_cert_source (Some failing_callback) default_args) start =
  instantiate env_full (with_client_cert_source None default_args) start.
Proof.
  split; [reflexivity |].
  exact (proj1 (client_cert_source_needs_endpoint env_full default_args
                  (Some failing_callback) None start eq_refl)).
Defined.

(** X2.  A mutual-TLS endpoint overrides the [host] argument (lines 112
    to 115 say so, lines 137 to 141 do it): with an endpoint and no
    channel, two constructions that differ in [host] only run
    identically. *)
Theorem endpoint_overrides_host (env : Env) (a : InitArgs) (h1 h2 : string)
    (s : State) :
  channel a = None ->
  str_truthy (api_mtls_endpoint a) = true ->
  instantiate env (with_host h1 a) s = instantiate env (with_host h2 a) s.
Proof.
  intros Hch Hm. unfold instantiate, __init__.
  cbn [with_host host credentials credentials_file scopes channel
       api_mtls_endpoint client_cert_source quota_project_id].
  rewrite Hch, Hm. reflexivity.
Qed.

(** X2 at an endpoint, with two hosts. *)
Lemma endpoint_overrides_host_witness :
  channel mtls_args = None /\
  str_truthy (api_mtls_endpoint mtls_args) = true /\
  instantiate env_full (with_host "localhost:1" mtls_args) start =
  instantiate env_full (with_host "example.org" mtls_args) start.
Proof.
  split; [reflexivity |]. split; [reflexivity |].
  exact (endpoint_overrides_host env_full mtls_args "localhost:1"
           "example.org" start eq_refl eq_refl).
Defined.

(** X3.  An empty scope list is no scope list ([scopes or
    self.AUTH_SCOPES] at lines 164, 175 and 214): whatever the other
    arguments, a construction with [scopes=[]] runs exactly as the one
    with [scopes=None], so the default scopes cannot be switched off. *)
Theorem empty_scopes_are_default (env : Env) (a : InitArgs) (s : State) :
  instantiate env (with_scopes (Some []) a) s =
    instantiate env (with_scopes None a) s.
Proof.
  unfold instantiate, __init__.
  cbn [with_scopes host credentials credentials_file scopes channel
       api_mtls_endpoint client_cert_source quota_project_id].
  reflexivity.
Qed.

(** ** Failures in the mutual-TLS branch *)

(** X4.  In the mutual-TLS branch ambient discovery comes first (lines
    143 to 146): with no credentials supplied and none to discover, the
    construction ends in the authentication error after that one call;
    the certificate callback is not invoked, no TLS credentials are
    assembled, no channel is created and the base constructor does not
    run. *)
Theorem mtls_discovery_fails_first (env : Env) (a : InitArgs) (s : State) :
  channel a = None ->
  str_truthy (api_mtls_endpoint a) = true ->
  credentials a = None ->
  ambient_credentials env (AUTH_SCOPES env) (quota_project_id a) = None ->
  fst (instantiate env a s) = Raise DefaultCredentialsError /\
  trace (snd (instantiate env a s)) =
    (trace s ++ [EvAuthDefault (AUTH_SCOPES env) (quota_project_id a)])%list.
Proof.
  intros Hch Hm Hc Hamb. unfold_py. cbn.
  rewrite Hch, Hm, Hc. cbn. rewrite Hamb. split; reflexivity.
Qed.

(** X4 at an endpoint in an environment with nothing to discover. *)
Lemma mtls_discovery_fails_first_witness :
  channel mtls_args = None /\
  str_truthy (api_mtls_endpoint mtls_args) = true /\
  credentials mtls_args = None /\
  ambient_credentials env_bare (AUTH_SCOPES env_bare)
    (quota_project_id mtls_args) = None /\
  fst (instantiate env_bare mtls_args start) = Raise DefaultCredentialsError.
Proof.
  do 4 (split; [reflexivity |]).
  exact (proj1 (mtls_discovery_fails_first env_bare mtls_args start
                  eq_refl eq_refl eq_refl eq_refl)).
Defined.

(** X5.  When the TLS material of the mutual-TLS branch cannot be
    assembled (the certificate callback raises, or there is no callback
    and the platform credentials raise [MutualTLSChannelError], lines
    150 to 156), and credentials were supplied or discovered, the
    construction ends in that very error, and neither [create_channel]
    nor [grpc_helpers.create_channel] nor the base constructor is
    called. *)
Theorem tls_failure_stops_construction (env : Env) (a : InitArgs)
    (err : Exc) (s : State) :
  channel a = None ->
  tls_material_error env a = Some err ->
  (credentials a = None ->
   ambient_credentials env (AUTH_SCOPES env) (quota_project_id a) <> None) ->
  let r := instantiate env a s in
  fst r = Raise err /\
  trace (snd r) = (trace s ++ events_since s (snd r))%list /\
  not_called CreateChannel (events_since s (snd r)) /\
  not_called GrpcHelpersCreateChannel (events_since s (snd r)) /\
  not_called BaseInit (events_since s (snd r)) /\
  not_called SslChannelCredentials (events_since s (snd r)).
Proof.
  intros Hch Htls Hamb r. subst r. unfold tls_material_error in Htls.
  destruct (str_truthy (api_mtls_endpoint a)) eqn:Hm; [| discriminate].
  destruct (client_cert_source a) as [cb |] eqn:Hcs;
    [destruct (cb tt) as [[cert key] | e'] eqn:Hcb; [discriminate |]
    | destruct (platform_ssl_credentials env) as [ssl |] eqn:Hssl;
      [discriminate |]];
    injection Htls as <-;
    (destruct (credentials a) as [c |] eqn:Hc;
     [| destruct (ambient_credentials env (AUTH_SCOPES env)
                    (quota_project_id a)) as [c |] eqn:Ha;
        [| now destruct (Hamb eq_refl)]]);
    unfold_py; cbn; rewrite Hch, Hm, Hc, Hcs; cbn;
    rewrite ?Ha, ?Hcb, ?Hssl; cbn;
    (split; [reflexivity |]);
    rewrite <- ?app_assoc; cbn [app];
    erewrite events_since_app by reflexivity;
    (split; [reflexivity |]); repeat split; no_such_call.
Qed.

(** X5 at an endpoint, explicit credentials and a callback that raises. *)
Lemma tls_failure_stops_construction_witness :
  channel
    (with_client_cert_source (Some failing_callback)
       (with_credentials (Some (Cred 5)) mtls_args)) = None /\
  tls_material_error env_full
    (with_client_cert_source (Some failing_callback)
       (with_credentials (Some (Cred 5)) mtls_args)) =
    Some (CallbackRaised 2) /\
  fst (instantiate env_full
         (with_client_cert_source (Some failing_callback)
            (with_credentials (Some (Cred 5)) mtls_args)) start) =
    Raise (CallbackRaised 2).
Proof.
  split; [reflexivity |]. split; [reflexivity |].
  refine (proj1 (tls_failure_stops_construction env_full
                   (with_client_cert_source (Some failing_callback)
                      (with_credentials (Some (Cred 5)) mtls_args))
                   (CallbackRaised 2) start eq_refl eq_refl _)).
  intros H. discriminate H.
Defined.

(** ** Where the TLS material comes from *)

(** The calls of the mutual-TLS branch, by the presence of the callback:
    with one the platform credentials are not consulted, without one no
    callback is invoked and no credentials are built from a certificate. *)
Lemma instantiate_mtls_tls_calls (env : Env) (a : InitArgs) (x : ascii)
    (e : string) (s : State) :
  channel a = None ->
  api_mtls_endpoint a = Some (String x e) ->
  let r := instantiate env a s in
  exists evs,
    trace (snd r) = (trace s ++ evs)%list /\
    (client_cert_source a <> None ->
     not_called DefaultSslCredentials evs) /\
    (client_cert_source a = None ->
     not_called ClientCertSource evs /\
     not_called SslChannelCredentials evs).
Proof.
  intros Hch Hm r. subst r.
  unfold instantiate, __init__. rewrite Hch, Hm.
  cbn -[create_channel AccessApprovalTransport.__init__ str_in String.append].
  unfold_small.
  cbn -[create_channel AccessApprovalTransport.__init__ str_in String.append].
  destruct (credentials a) as [c |];
    [| destruct (ambient_credentials env _ _) as [c |] eqn:Hamb];
    cbn -[create_channel AccessApprovalTransport.__init__ str_in String.append].
  3: { eexists. split; [reflexivity |]. split; [intros _ | intros _; split];
       no_call. }
  all: destruct (client_cert_source a) as [cb |];
    [destruct (cb tt) as [[cert key] | err] eqn:Hcb
    | destruct (platform_ssl_credentials env) as [ssl |] eqn:Hssl];
    cbn -[create_channel AccessApprovalTransport.__init__ str_in
          String.append].
  all: try (eexists; rewrite <- ?app_assoc; cbn [app];
            split; [reflexivity |];
            split; [intros Hcs | intros Hcs; split];
            try discriminate Hcs; try (now destruct Hcs); no_call).
  all: match goal with
       | |- context [create_channel ?v ?h0 ?c0 ?f ?sc ?q ?ssl0 ?s0] =>
           pose proof (create_channel_run v h0 c0 f sc q ssl0 s0) as Hcc;
           cbv zeta in Hcc;
           destruct (create_channel v h0 c0 f sc q ssl0 s0)
             as [[ch | err] s1];
           cbn [fst snd self trace next_id] in Hcc;
           destruct Hcc as (Hself & (evs1 & Htr1 & Hres1) & Hok)
       end.
  all: cbn -[AccessApprovalTransport.__init__ str_in String.append].
  all: try (eexists; split;
            [rewrite Htr1, <- ?app_assoc; cbn [app]; reflexivity |];
            split; [intros Hcs | intros Hcs; split];
            try discriminate Hcs; try (now destruct Hcs); no_call).
  all: match goal with
       | |- context [AccessApprovalTransport.__init__ ?v ?h0 ?c0 ?f ?sc ?q
                       ?s0] =>
           pose proof (base_init_run v h0 c0 f sc q s0) as Hb;
           cbv zeta in Hb;
           destruct (AccessApprovalTransport.__init__ v h0 c0 f sc q s0)
             as [res s2];
           cbn [fst snd self trace next_id _grpc_channel _stubs _host
                _credentials] in Hb;
           destruct Hb as (_ & _ & _ & _ & (evs2 & Htr2 & Hres2) & _)
       end.
  all: cbn [fst snd].
  all: eexists; split;
    [rewrite Htr2, Htr1, <- ?app_assoc; cbn [app]; reflexivity |].
  all: split; [intros Hcs | intros Hcs; split];
    try discriminate Hcs; try (now destruct Hcs); no_call.
Qed.

(** X6.  In the mutual-TLS branch the certificate callback takes
    precedence over the platform's TLS credentials (lines 150 to 156):
    with a callback the platform credentials are never consulted and a
    finished instance holds a channel whose TLS credentials are built
    from exactly the certificate chain and private key the callback
    returned; without one no callback is invoked and the channel carries
    the platform credentials. *)
Theorem tls_material_source (env : Env) (a : InitArgs) (e : string)
    (s : State) :
  channel a = None ->
  api_mtls_endpoint a = Some e ->
  e <> "" ->
  let r := instantiate env a s in
  (forall cb,
     client_cert_source a = Some cb ->
     not_called DefaultSslCredentials (events_since s (snd r)) /\
     (fst r = Ok tt ->
      exists cert key ch,
        cb tt = Ok (cert, key) /\
        held_channel (self (snd r)) = Some ch /\
        ca_ssl_credentials (ch_args ch) = Some (SslFromCert cert key))) /\
  (client_cert_source a = None ->
   not_called ClientCertSource (events_since s (snd r)) /\
   not_called SslChannelCredentials (events_since s (snd r)) /\
   (fst r = Ok tt ->
    exists ssl ch,
      platform_ssl_credentials env = Some ssl /\
      held_channel (self (snd r)) = Some ch /\
      ca_ssl_credentials (ch_args ch) = Some ssl)).
Proof.
  intros Hch Hm Hne r. destruct e as [| x e]; [congruence |].
  destruct (instantiate_mtls_tls_calls env a x e s Hch Hm)
    as (evs & Htr & Hcb & Hnone).
  destruct (instantiate_mtls env a x e s Hch Hm)
    as (evs' & _ & _ & _ & Hok).
  fold r in Htr, Hok. rewrite (events_since_app s (snd r) evs Htr).
  split.
  - intros cb Hcs. split; [apply Hcb; congruence |].
    intros Hres.
    destruct (Hok Hres)
      as (ch & c & ssl & H1 & _ & _ & _ & H5 & _ & _ & _ & H9).
    rewrite Hcs in H9. destruct H9 as (cert & key & Hcall & ->).
    exists cert, key, ch. split; [exact Hcall |].
    unfold held_channel. rewrite H1, H5. split; reflexivity.
  - intros Hcs. destruct (Hnone Hcs) as [Hn1 Hn2].
    split; [exact Hn1 |]. split; [exact Hn2 |].
    intros Hres.
    destruct (Hok Hres)
      as (ch & c & ssl & H1 & _ & _ & _ & H5 & _ & _ & _ & H9).
    rewrite Hcs in H9.
    exists ssl, ch. split; [exact H9 |].
    unfold held_channel. rewrite H1, H5. split; reflexivity.
Qed.

(** X6 at an endpoint and a callback that answers. *)
Lemma tls_material_source_witness :
  channel (with_client_cert_source (Some pem_callback) mtls_args) = None /\
  exists ch,
    held_channel
      (self (snd (instantiate env_full
                    (with_client_cert_source (Some pem_callback) mtls_args)
                    start))) = Some ch /\
    ca_ssl_credentials (ch_args ch) =
      Some (SslFromCert [x2d; x2d] [x2b; x2b]).
Proof.
  split; [reflexivity |].
  destruct (proj2 (proj1 (tls_material_source env_full
                     (with_client_cert_source (Some pem_callback) mtls_args)
                     "accessapproval.mtls.googleapis.com" start
                     eq_refl eq_refl ltac:(discriminate))
                     pem_callback eq_refl) eq_refl)
    as (cert & key & ch & Hcall & Hheld & Hssl).
  exists ch. split; [exact Hheld |].
  injection Hcall as <- <-. exact Hssl.
Defined.

(** ** Reads, call by call *)

Lemma unary_calls_nil : unary_calls [] = 0.
Proof. reflexivity. Qed.

Lemma unary_calls_app (l1 l2 : list Event) :
  unary_calls (l1 ++ l2) = unary_calls l1 + unary_calls l2.
Proof. unfold unary_calls. now rewrite filter_app, length_app. Qed.

Lemma unary_calls_cons (e : Event) (l : list Event) :
  unary_calls (e :: l) = (if is_unary_unary e then 1 else 0) + unary_calls l.
Proof.
  unfold unary_calls. rewrite filter_cons.
  destruct (is_unary_unary e); case_decide; cbn; congruence.
Qed.

Lemma reads_only_nil : reads_only [].
Proof. intros e H. now apply elem_of_nil in H. Qed.

Lemma reads_only_app (l1 l2 : list Event) :
  reads_only l1 -> reads_only l2 -> reads_only (l1 ++ l2).
Proof.
  intros H1 H2 e Hin.
  apply elem_of_app in Hin as [Hin | Hin]; [now apply H1 | now apply H2].
Qed.

Lemma lazy_calls_nil (t : Transport) : lazy_calls t [].
Proof. intros h c f sc q ssl H. now apply elem_of_nil in H. Qed.

Lemma lazy_calls_app (t t' : Transport) (l1 l2 : list Event) :
  _host t' = _host t ->
  _credentials t' = _credentials t ->
  lazy_calls t l1 -> lazy_calls t' l2 -> lazy_calls t (l1 ++ l2).
Proof.
  intros Hh Hc H1 H2 h c f sc q ssl Hin.
  apply elem_of_app in Hin as [Hin | Hin]; [now apply H1 |].
  rewrite <- Hh, <- Hc. now apply H2.
Qed.

Lemma coherent_ready (t : Transport) : coherent t -> ready t.
Proof. now intros [H _]. Qed.

(** The channel property on a coherent instance. *)
Lemma grpc_channel_step (env : Env) (s : State) :
  coherent (self s) ->
  exists ch s',
    grpc_channel env s = (Ok (Some ch), s') /\
    held_channel (self s') = Some ch /\
    _stubs (self s') = _stubs (self s) /\
    read_step env ∅ s s'.
Proof.
  intros [Hr (d & Hd & Hbound)]. pose proof Hr as [_ Hcase].
  destruct Hcase as [[ch Hch] | (Hn & h & c & Hh & Hc)].
  - assert (Hheld : held_channel (self s) = Some ch)
      by (unfold held_channel; now rewrite Hch).
    exists ch, s. rewrite (grpc_channel_cached env s _ Hch).
    split; [reflexivity |]. split; [exact Hheld |].
    split; [reflexivity |].
    exists [], d, d, ch. rewrite app_nil_r.
    split; [reflexivity |]. split; [apply reads_only_nil |].
    split; [apply lazy_calls_nil |]. split; [exact Hd |].
    split; [exact Hd |]. split; [reflexivity |].
    split; [now rewrite (left_id_L ∅ (∪)) |].
    split; [reflexivity |]. split; [reflexivity |].
    split; [exact Hheld |]. split; [now left |].
    split; [exact Hr |]. exists d. now split.
  - assert (Hheld : held_channel (self s) = None)
      by (unfold held_channel; now rewrite Hn).
    rewrite Hheld in Hbound. subst d.
    eexists _, _. rewrite (grpc_channel_first env s h c Hn Hh Hc).
    split; [reflexivity |].
    unfold held_channel at 1. cbn [self _grpc_channel].
    split; [reflexivity |]. split; [reflexivity |].
    eexists _, ∅, ∅, _. cbn [self trace _stubs _host _credentials].
    split; [reflexivity |]. split.
    { intros e Hin.
      apply elem_of_cons in Hin as [-> | Hin]; [now left |].
      apply list_elem_of_singleton in Hin as ->. right. now left. }
    split.
    { intros h' c' f sc q ssl Hin.
      apply elem_of_cons in Hin as [Heq | Hin].
      - injection Heq as -> -> -> -> -> ->.
        repeat split; assumption || reflexivity.
      - apply list_elem_of_singleton in Hin. discriminate Hin. }
    split; [exact Hd |]. split; [exact Hd |].
    split; [reflexivity |].
    split; [now rewrite (left_id_L ∅ (∪)) |].
    split; [now rewrite Hh |]. split; [now rewrite Hc |].
    rewrite Hheld. split; [reflexivity |].
    split; [right; split; [reflexivity | exists h, c; auto] |].
    split.
    + split; [exists ∅; split; [exact Hd | apply stubs_wf_empty] |].
      left. eexists. reflexivity.
    + exists ∅. split; [exact Hd |].
      intros op f Hl. rewrite lookup_empty in Hl. discriminate Hl.
Qed.

Lemma read_step_trans (env : Env) (k1 k2 : gset string) (s s1 s2 : State) :
  read_step env k1 s s1 -> read_step env k2 s1 s2 ->
  read_step env (k2 ∪ k1) s s2.
Proof.
  intros (evs1 & d & d1 & ch1 & Ht1 & Ho1 & Hl1 & Hd & Hd1 & Hu1 & Hdom1 &
          Hh1 & Hc1 & Hheld1 & Hfrom1 & _)
         (evs2 & d1' & d2 & ch2 & Ht2 & Ho2 & Hl2 & Hd1' & Hd2 & Hu2 & Hdom2 &
          Hh2 & Hc2 & Hheld2 & Hfrom2 & Hcoh2).
  rewrite Hd1 in Hd1'. injection Hd1' as <-.
  assert (ch2 = ch1) as ->.
  { destruct Hfrom2 as [H | [H _]]; rewrite Hheld1 in H; congruence. }
  exists (evs1 ++ evs2)%list, d, d2, ch1.
  split; [now rewrite Ht2, Ht1, app_assoc |].
  split; [now apply reads_only_app |].
  split; [now apply (lazy_calls_app _ (self s1)) |].
  split; [exact Hd |]. split; [exact Hd2 |].
  split; [rewrite unary_calls_app; lia |].
  split; [now rewrite Hdom2, Hdom1, (assoc_L (∪)) |].
  split; [congruence |]. split; [congruence |].
  split; [exact Hheld2 |]. split; [exact Hfrom1 | exact Hcoh2].
Qed.

(** Binding the callable of an operation that has no entry yet, on an
    instance that holds a channel (lines 266 to 270). *)
Lemma stub_bind_step (env : Env) (op : Operation) (s1 : State)
    (d : gmap string Stub) (ch : Channel) :
  _stubs (self s1) = Some d ->
  d !! stub_key op = None ->
  held_channel (self s1) = Some ch ->
  coherent (self s1) ->
  let f :=
    {| stub_id := next_id s1; stub_channel := ch_id ch;
       stub_path := method_path op;
       stub_request_serializer := request_serializer op;
       stub_response_deserializer := response_deserializer op |} in
  read_step env {[stub_key op]} s1
    {| self :=
         {| _grpc_channel := _grpc_channel (self s1);
            _stubs := Some (<[stub_key op := f]> d);
            _host := _host (self s1);
            _credentials := _credentials (self s1) |};
       trace := trace s1 ++ [EvUnaryUnary (ch_id ch) (method_path op)];
       next_id := S (next_id s1) |}.
Proof.
  intros Hd Hk Hheld [Hr (d' & Hd' & Hbound)] f.
  rewrite Hd in Hd'. injection Hd' as <-. rewrite Hheld in Hbound.
  assert (Hheld' :
    held_channel
      {| _grpc_channel := _grpc_channel (self s1);
         _stubs := Some (<[stub_key op := f]> d);
         _host := _host (self s1);
         _credentials := _credentials (self s1) |} = Some ch)
    by exact Hheld.
  assert (Hbound' : stubs_bound (<[stub_key op := f]> d) ch).
  { intros op' f' Hl.
    destruct (decide (stub_key op = stub_key op')) as [He | Hne].
    - rewrite He, lookup_insert_eq in Hl. injection Hl as <-.
      rewrite <- (stub_key_inj _ _ He). cbn. auto.
    - rewrite lookup_insert_ne in Hl by exact Hne. eauto. }
  exists [EvUnaryUnary (ch_id ch) (method_path op)], d,
    (<[stub_key op := f]> d), ch.
  cbn [self trace _stubs _host _credentials].
  split; [reflexivity |].
  split.
  { intros e Hin. apply list_elem_of_singleton in Hin as ->.
    right. now right. }
  split.
  { intros h c f0 sc q ssl Hin.
    apply list_elem_of_singleton in Hin. discriminate Hin. }
  split; [exact Hd |]. split; [reflexivity |].
  split; [rewrite (map_size_insert_None _ _ _ Hk); reflexivity |].
  split; [apply dom_insert_L |].
  split; [reflexivity |]. split; [reflexivity |].
  split; [exact Hheld' |]. split; [now left |].
  split.
  - split.
    + eexists. split; [reflexivity |]. intros op' f' Hl.
      now destruct (Hbound' op' f' Hl) as (_ & H & _).
    + left. unfold held_channel in Hheld.
      destruct (_grpc_channel (self s1)) as [[ch' |] |]; try discriminate.
      exists ch'. reflexivity.
  - eexists. split; [reflexivity |]. now rewrite Hheld'.
Qed.

(** A stub property on a coherent instance. *)
Lemma stub_step (env : Env) (op : Operation) (s : State) :
  coherent (self s) ->
  exists f s',
    stub env op s = (Ok f, s') /\
    cached_stub (self s') op = Some f /\
    read_step env {[stub_key op]} s s'.
Proof.
  intros Hcoh. pose proof Hcoh as [Hr (d & Hd & Hbound)].
  rewrite stub_is_property.
  destruct (d !! stub_key op) as [f |] eqn:Hk.
  - exists f, s.
    rewrite (stub_property_cached env _ _ _ _ s d f Hd Hk).
    split; [reflexivity |].
    split; [unfold cached_stub; now rewrite Hd |].
    destruct (held_channel (self s)) as [ch |] eqn:Hheld;
      [| subst d; rewrite lookup_empty in Hk; discriminate Hk].
    exists [], d, d, ch. rewrite app_nil_r.
    split; [reflexivity |]. split; [apply reads_only_nil |].
    split; [apply lazy_calls_nil |]. split; [exact Hd |].
    split; [exact Hd |]. split; [reflexivity |].
    split.
    { apply (elem_of_dom_2 (D := gset string)) in Hk.
      symmetry. apply subseteq_union_1_L. now apply singleton_subseteq_l. }
    split; [reflexivity |]. split; [reflexivity |].
    split; [exact Hheld |]. split; [now left | exact Hcoh].
  - destruct (grpc_channel_step env s Hcoh)
      as (ch & s1 & Hgc & Hheld1 & Hst1 & Hstep1).
    rewrite Hd in Hst1.
    assert (Hcoh1 : coherent (self s1)).
    { destruct Hstep1 as (? & ? & ? & ? & H). apply H. }
    eexists _, _.
    rewrite (stub_property_first env _ _ _ _ s s1 d ch Hd Hk Hgc Hst1).
    split; [reflexivity |].
    split; [unfold cached_stub; cbn [self _stubs]; apply lookup_insert_eq |].
    rewrite <- (right_id_L ∅ (∪) {[stub_key op]}).
    eapply read_step_trans; [exact Hstep1 |].
    exact (stub_bind_step env op s1 d ch Hst1 Hk Hheld1 Hcoh1).
Qed.

Lemma keys_read_cons_stub (op : Operation) (l : list Access) :
  keys_read (ReadStub op :: l) = {[stub_key op]} ∪ keys_read l.
Proof. reflexivity. Qed.

Lemma keys_read_cons_channel (l : list Access) :
  keys_read (ReadChannel :: l) = keys_read l.
Proof. reflexivity. Qed.

(** One read. *)
Lemma access_step (env : Env) (x : Access) (s : State) :
  coherent (self s) ->
  exists s',
    access env x s = (Ok tt, s') /\
    read_step env (keys_read [x]) s s'.
Proof.
  intros Hcoh. destruct x as [| op]; unfold access; rewrite bind_run.
  - destruct (grpc_channel_step env s Hcoh) as (ch & s' & Hgc & _ & _ & H).
    exists s'. rewrite Hgc. split; [reflexivity | exact H].
  - destruct (stub_step env op s Hcoh) as (f & s' & Hst & _ & H).
    exists s'. rewrite Hst. split; [reflexivity |].
    rewrite keys_read_cons_stub. cbn [keys_read omap list_omap list_to_set].
    now rewrite (right_id_L ∅ (∪)).
Qed.

(** Any sequence of reads that is not empty. *)
Lemma accesses_step (env : Env) (l : list Access) (s : State) :
  coherent (self s) ->
  l <> [] ->
  exists s',
    accesses env l s = (Ok tt, s') /\
    read_step env (keys_read l) s s'.
Proof.
  revert s. induction l as [| x l IH]; intros s Hcoh Hne; [congruence |].
  destruct (access_step env x s Hcoh) as (s1 & Hx & Hstep1).
  cbn [accesses]. rewrite bind_run, Hx.
  destruct l as [| y l].
  - exists s1. split; [reflexivity | exact Hstep1].
  - assert (Hcoh1 : coherent (self s1)).
    { destruct Hstep1 as (? & ? & ? & ? & H). apply H. }
    destruct (IH s1 Hcoh1 ltac:(discriminate)) as (s2 & Hl & Hstep2).
    exists s2. split; [exact Hl |].
    replace (keys_read (x :: y :: l))
      with (keys_read (y :: l) ∪ keys_read [x]).
    + eapply read_step_trans; eassumption.
    + destruct x as [| op].
      * rewrite keys_read_cons_channel. unfold keys_read at 2. cbn.
        now rewrite (right_id_L ∅ (∪)).
      * rewrite keys_read_cons_stub. unfold keys_read at 2. cbn.
        rewrite (right_id_L ∅ (∪)). apply (comm_L (∪)).
Qed.

(** A finished construction leaves a coherent instance. *)
Lemma instantiate_coherent (env : Env) (a : InitArgs) (s : State) :
  fst (instantiate env a s) = Ok tt ->
  coherent (self (snd (instantiate env a s))).
Proof.
  intros Hok. destruct (instantiate_ready env a s Hok) as (Hr & Hempty & _).
  split; [exact Hr |]. exists ∅. split; [exact Hempty |].
  destruct (held_channel _); [| reflexivity].
  intros op f Hl. rewrite lookup_empty in Hl. discriminate Hl.
Qed.

(** Any sequence of reads, then the channel property. *)
Lemma accesses_then_channel (env : Env) (l : list Access) (s : State) :
  coherent (self s) ->
  exists s1 ch s2,
    accesses env l s = (Ok tt, s1) /\
    grpc_channel env s1 = (Ok (Some ch), s2) /\
    held_channel (self s2) = Some ch /\
    read_step env (keys_read l) s s2.
Proof.
  intros Hcoh. destruct l as [| x l].
  - destruct (grpc_channel_step env s Hcoh) as (ch & s2 & Hgc & Hh & _ & H).
    exists s, ch, s2. split; [reflexivity |]. auto.
  - destruct (accesses_step env (x :: l) s Hcoh ltac:(discriminate))
      as (s1 & Hl & Hstep1).
    assert (Hcoh1 : coherent (self s1)).
    { destruct Hstep1 as (? & ? & ? & ? & H). apply H. }
    destruct (grpc_channel_step env s1 Hcoh1)
      as (ch & s2 & Hgc & Hh & _ & Hstep2).
    exists s1, ch, s2. split; [exact Hl |]. split; [exact Hgc |].
    split; [exact Hh |].
    rewrite <- (left_id_L ∅ (∪) (keys_read (x :: l))).
    eapply read_step_trans; eassumption.
Qed.

Lemma events_since_refl (s : State) : events_since s s = [].
Proof. unfold events_since. apply drop_all. Qed.

(** ** What reads do and never do *)

(** X7.  Once an instance is constructed, reading its properties never
    resolves credentials, assembles TLS material or runs a constructor
    again: whatever the sequence of reads, every call they make is a
    call of [create_channel], of [grpc_helpers.create_channel] or of
    [unary_unary], and every call of [create_channel] passes the stored
    host and the stored credentials and no credentials file, scopes,
    quota project or TLS credentials (lines 233 to 236 and 265 to 270). *)
Theorem reads_create_and_bind_only (env : Env) (a : InitArgs) (s : State) :
  fst (instantiate env a s) = Ok tt ->
  let s0 := snd (instantiate env a s) in
  forall l, exists s',
    accesses env l s0 = (Ok tt, s') /\
    trace s' = (trace s0 ++ events_since s0 s')%list /\
    reads_only (events_since s0 s') /\
    lazy_calls (self s0) (events_since s0 s').
Proof.
  intros Hok s0 l.
  pose proof (instantiate_coherent env a s Hok) as Hcoh. fold s0 in Hcoh.
  destruct l as [| x l].
  - exists s0. rewrite events_since_refl, app_nil_r.
    split; [reflexivity |]. split; [reflexivity |].
    split; [apply reads_only_nil | apply lazy_calls_nil].
  - destruct (accesses_step env (x :: l) s0 Hcoh ltac:(discriminate))
      as (s' & Hl & evs & d & d' & ch & Htr & Ho & Hlazy & _).
    exists s'. rewrite (events_since_app _ _ _ Htr). auto.
Qed.

(** X7 at the default arguments, reading a stub and the channel. *)
Lemma reads_create_and_bind_only_witness :
  fst (instantiate env_full default_args start) = Ok tt /\
  exists s',
    accesses env_full [ReadStub GetApprovalRequest; ReadChannel]
      (snd (instantiate env_full default_args start)) = (Ok tt, s') /\
    reads_only
      (events_since (snd (instantiate env_full default_args start)) s').
Proof.
  split; [reflexivity |].
  destruct (reads_create_and_bind_only env_full default_args start eq_refl
              [ReadStub GetApprovalRequest; ReadChannel])
    as (s' & Hl & _ & Ho & _).
  exists s'. split; [exact Hl | exact Ho].
Defined.

Lemma elem_of_keys_read (op : Operation) (l : list Access) :
  stub_key op ∈ keys_read l <-> ReadStub op ∈ l.
Proof.
  unfold keys_read. rewrite elem_of_list_to_set, list_elem_of_omap. split.
  - intros ([| op'] & Hin & Heq); [discriminate |].
    injection Heq as Heq. now rewrite <- (stub_key_inj _ _ Heq).
  - intros Hin. exists (ReadStub op). split; [exact Hin | reflexivity].
Qed.

(** The table after any sequence of reads, from the table before. *)
Lemma table_after_reads (env : Env) (s : State) (d : gmap string Stub)
    (l : list Access) :
  coherent (self s) ->
  _stubs (self s) = Some d ->
  exists s' d',
    accesses env l s = (Ok tt, s') /\
    trace s' = (trace s ++ events_since s s')%list /\
    _stubs (self s') = Some d' /\
    dom d' = keys_read l ∪ dom d /\
    unary_calls (events_since s s') + size d = size d'.
Proof.
  intros Hcoh Hd. destruct l as [| x l].
  - exists s, d. rewrite events_since_refl, app_nil_r.
    split; [reflexivity |]. split; [reflexivity |]. split; [exact Hd |].
    split; [| reflexivity].
    unfold keys_read. cbn. now rewrite (left_id_L ∅ (∪)).
  - destruct (accesses_step env (x :: l) s Hcoh ltac:(discriminate))
      as (s' & Hl & evs & d0 & d' & ch & Htr & _ & _ & Hd0 & Hd' & Hu & Hdom
          & _).
    rewrite Hd in Hd0. injection Hd0 as <-.
    exists s', d'. rewrite (events_since_app _ _ _ Htr). auto.
Qed.

Lemma coherent_unread : coherent (self unread_instance).
Proof.
  split; [split |].
  - exists ∅. split; [reflexivity | apply stubs_wf_empty].
  - right. split; [reflexivity |]. eexists _, _. split; reflexivity.
  - exists ∅. split; reflexivity.
Qed.

Lemma coherent_half_read : coherent (self half_read_instance).
Proof.
  assert (Hb : stubs_bound
                 {[ "get_approval_request" :=
                      {| stub_id := 100;
                         stub_channel := 7;
                         stub_path := method_path GetApprovalRequest;
                         stub_request_serializer :=
                           request_serializer GetApprovalRequest;
                         stub_response_deserializer :=
                           response_deserializer GetApprovalRequest |} ]}
                 injected_channel).
  { intros op f Hl. destruct op; vm_compute in Hl; try discriminate Hl;
      injection Hl as <-; repeat split; reflexivity. }
  split; [split |].
  - eexists. split; [reflexivity |]. intros op f Hl.
    now destruct (Hb op f Hl) as (_ & H & _).
  - left. eexists. reflexivity.
  - eexists. split; [reflexivity | exact Hb].
Qed.

(** X8.  A callable is bound exactly when an entry is added to the
    table, and never for an operation that has one (lines 265 to 270 and
    their repetitions): over any sequence of reads, the number of calls
    of [unary_unary] is the number of distinct stub properties read that
    had no entry before, and the table grows by that number. *)
Theorem one_callable_per_operation (env : Env) (s : State)
    (d : gmap string Stub) :
  coherent (self s) ->
  _stubs (self s) = Some d ->
  forall l, exists s',
    accesses env l s = (Ok tt, s') /\
    trace s' = (trace s ++ events_since s s')%list /\
    unary_calls (events_since s s') = size (keys_read l ∖ dom d) /\
    dispatch_entries (self s') =
      Some (size d + size (keys_read l ∖ dom d)).
Proof.
  intros Hcoh Hd l.
  destruct (table_after_reads env s d l Hcoh Hd)
    as (s' & d' & Hl & Htr & Hd' & Hdom & Hu).
  exists s'. split; [exact Hl |]. split; [exact Htr |].
  assert (Hsize : size d' = size d + size (keys_read l ∖ dom d)).
  { rewrite <- (size_dom (D := gset string)) at 1.
    rewrite Hdom, (comm_L (∪)), size_union_alt, size_dom. reflexivity. }
  unfold dispatch_entries. rewrite Hd', Hsize. split; [lia | reflexivity].
Qed.

(** X8 at an instance that holds one entry: the property that has it is
    read again, another one is read twice. *)
Lemma one_callable_per_operation_witness :
  coherent (self half_read_instance) /\
  exists s',
    accesses env_full
      [ReadStub GetApprovalRequest; ReadStub ListApprovalRequests;
       ReadStub ListApprovalRequests] half_read_instance = (Ok tt, s') /\
    unary_calls (events_since half_read_instance s') = 1 /\
    dispatch_entries (self s') = Some 2.
Proof.
  split; [exact coherent_half_read |].
  destruct (one_callable_per_operation env_full half_read_instance _
              coherent_half_read eq_refl
              [ReadStub GetApprovalRequest; ReadStub ListApprovalRequests;
               ReadStub ListApprovalRequests])
    as (s' & Hl & _ & Hu & Hn).
  exists s'. split; [exact Hl |]. rewrite Hu, Hn.
  split; vm_compute; reflexivity.
Defined.

(** X9.  Reads add the entries of the operations read and no others:
    after any sequence of reads the table holds an entry for an
    operation exactly when its stub property was among the reads or the
    entry was there before; reading one property, or the channel, never
    fills in another operation's entry. *)
Theorem table_holds_operations_read (env : Env) (s : State) :
  coherent (self s) ->
  forall l, exists s',
    accesses env l s = (Ok tt, s') /\
    forall op,
      is_Some (cached_stub (self s') op) <->
      ReadStub op ∈ l \/ is_Some (cached_stub (self s) op).
Proof.
  intros Hcoh l. pose proof Hcoh as [_ (d & Hd & _)].
  destruct (table_after_reads env s d l Hcoh Hd)
    as (s' & d' & Hl & _ & Hd' & Hdom & _).
  exists s'. split; [exact Hl |].
  intros op. unfold cached_stub. rewrite Hd, Hd'.
  rewrite <- elem_of_keys_read, <- !elem_of_dom, Hdom.
  apply elem_of_union.
Qed.

(** X9 at an instance that holds one entry: another property and the
    channel are read, a third property is not. *)
Lemma table_holds_operations_read_witness :
  coherent (self half_read_instance) /\
  exists s',
    accesses env_full [ReadChannel; ReadStub DismissApprovalRequest]
      half_read_instance = (Ok tt, s') /\
    is_Some (cached_stub (self s') DismissApprovalRequest) /\
    is_Some (cached_stub (self s') GetApprovalRequest) /\
    cached_stub (self s') ApproveApprovalRequest = None.
Proof.
  split; [exact coherent_half_read |].
  destruct (table_holds_operations_read env_full half_read_instance
              coherent_half_read
              [ReadChannel; ReadStub DismissApprovalRequest])
    as (s' & Hl & Hiff).
  exists s'. split; [exact Hl |]. split; [| split].
  - apply Hiff. left. apply elem_of_cons. right. apply elem_of_cons.
    now left.
  - apply Hiff. right. eexists. reflexivity.
  - apply eq_None_not_Some. intros H. apply Hiff in H as [H | [f H]].
    + repeat (apply elem_of_cons in H as [H | H]; [discriminate H |]).
      exact (proj1 (elem_of_nil _) H).
    + vm_compute in H. discriminate H.
Defined.

(** ** One channel under every callable *)

(** X10.  Every callable of an instance is bound to the instance's one
    channel: after any sequence of reads, the callable a stub property
    returns carries the operation's method path, serializer and
    deserializer and the identity of the channel the channel property
    returns, so does every other entry of the table, and the entries of
    two different operations are different callables. *)
Theorem callables_share_the_channel (env : Env) (a : InitArgs) (s : State) :
  fst (instantiate env a s) = Ok tt ->
  let s0 := snd (instantiate env a s) in
  forall l op, exists s1 f s2 ch,
    accesses env l s0 = (Ok tt, s1) /\
    stub env op s1 = (Ok f, s2) /\
    grpc_channel env s2 = (Ok (Some ch), s2) /\
    stub_channel f = ch_id ch /\
    stub_path f = method_path op /\
    stub_request_serializer f = request_serializer op /\
    stub_response_deserializer f = response_deserializer op /\
    forall op' g,
      cached_stub (self s2) op' = Some g ->
      stub_channel g = ch_id ch /\ (op' <> op -> g <> f).
Proof.
  intros Hok s0 l op.
  pose proof (instantiate_coherent env a s Hok) as Hcoh. fold s0 in Hcoh.
  assert (Hl : exists s1, accesses env l s0 = (Ok tt, s1) /\
                          coherent (self s1)).
  { destruct l as [| x l]; [exists s0; now split |].
    destruct (accesses_step env (x :: l) s0 Hcoh ltac:(discriminate))
      as (s1 & Hl & ? & ? & ? & ? & H).
    exists s1. split; [exact Hl | apply H]. }
  destruct Hl as (s1 & Hl & Hcoh1).
  destruct (stub_step env op s1 Hcoh1)
    as (f & s2 & Hst & Hc & evs & d & d' & ch & _ & _ & _ & _ & Hd' & _ & _
        & _ & _ & Hheld & _ & _ & d2 & Hd2 & Hbound).
  rewrite Hd' in Hd2. injection Hd2 as <-. rewrite Hheld in Hbound.
  assert (Hgc : _grpc_channel (self s2) = Some (Some ch)).
  { unfold held_channel in Hheld.
    destruct (_grpc_channel (self s2)) as [[ch' |] |]; congruence. }
  unfold cached_stub in *. rewrite Hd' in *.
  destruct (Hbound op f Hc) as (H1 & H2 & H3 & H4).
  exists s1, f, s2, ch. split; [exact Hl |]. split; [exact Hst |].
  split; [exact (grpc_channel_cached env s2 _ Hgc) |].
  do 4 (split; [assumption |]).
  intros op' g Hg. rewrite Hd' in Hg.
  destruct (Hbound op' g Hg) as (G1 & G2 & _).
  split; [exact G1 |]. intros Hne Heq. subst g. apply Hne.
  rewrite H2 in G2.
  destruct op, op'; try reflexivity; discriminate G2.
Qed.

(** X10 at an instance around a supplied channel. *)
Lemma callables_share_the_channel_witness :
  fst (instantiate env_full
         (with_channel (Some injected_channel) default_args) start) = Ok tt /\
  exists f s2 ch,
    (accesses env_full [ReadStub GetAccessApprovalSettings] ;;;
     stub env_full DeleteAccessApprovalSettings)
      (snd (instantiate env_full
              (with_channel (Some injected_channel) default_args) start)) =
      (Ok f, s2) /\
    grpc_channel env_full s2 = (Ok (Some ch), s2) /\
    stub_channel f = ch_id ch.
Proof.
  split; [reflexivity |].
  destruct (callables_share_the_channel env_full
              (with_channel (Some injected_channel) default_args) start
              eq_refl [ReadStub GetAccessApprovalSettings]
              DeleteAccessApprovalSettings)
    as (s1 & f & s2 & ch & Hl & Hst & Hgc & Hch & _).
  exists f, s2, ch. rewrite bind_run, Hl.
  split; [exact Hst |]. split; [exact Hgc | exact Hch].
Defined.

(** ** The channel a read creates *)

(** X11.  On an instance that holds no channel yet, the channel is
    created by the first read, whichever property it is (the channel
    property at line 234, or a stub property through line 266), and it
    is the same object in either case: a new channel made by
    [create_channel] from the stored host and the stored credentials and
    nothing else.  Any two sequences of reads that are not empty leave
    the instance with that channel. *)
Theorem first_read_creates_the_channel (env : Env) (s : State) :
  coherent (self s) ->
  held_channel (self s) = None ->
  exists ch,
    lazily_created env s ch /\
    forall l, l <> [] ->
      exists s',
        accesses env l s = (Ok tt, s') /\
        held_channel (self s') = Some ch.
Proof.
  intros Hcoh Hnone.
  assert (Hlazy : exists ch, lazily_created env s ch).
  { destruct Hcoh as [[_ [[ch Hch] | (_ & h & c & Hh & Hc)]] _].
    - unfold held_channel in Hnone. rewrite Hch in Hnone.
      discriminate Hnone.
    - eexists. exists h, c. eauto. }
  destruct Hlazy as (ch & Hlazy). exists ch. split; [exact Hlazy |].
  intros l Hne.
  destruct (accesses_step env l s Hcoh Hne)
    as (s' & Hl & evs & d & d' & ch' & _ & _ & _ & _ & _ & _ & _ & _ & _
        & Hheld & Hfrom & _).
  exists s'. split; [exact Hl |]. rewrite Hheld. f_equal.
  destruct Hfrom as [H | [_ (h & c & Hh & Hc & ->)]]; [congruence |].
  destruct Hlazy as (h' & c' & Hh' & Hc' & ->).
  rewrite Hh in Hh'. rewrite Hc in Hc'.
  injection Hh' as <-. injection Hc' as <-. reflexivity.
Qed.

(** X11 at an instance nothing was read on: a stub read first, or the
    channel. *)
Lemma first_read_creates_the_channel_witness :
  coherent (self unread_instance) /\
  held_channel (self unread_instance) = None /\
  exists s1 s2 ch,
    accesses env_full [ReadStub UpdateAccessApprovalSettings]
      unread_instance = (Ok tt, s1) /\
    accesses env_full [ReadChannel] unread_instance = (Ok tt, s2) /\
    held_channel (self s1) = Some ch /\
    held_channel (self s2) = Some ch /\
    ch_id ch = 100 /\
    ca_target (ch_args ch) = "accessapproval.googleapis.com:443".
Proof.
  split; [exact coherent_unread |]. split; [reflexivity |].
  destruct (first_read_creates_the_channel env_full unread_instance
              coherent_unread eq_refl) as (ch & Hlazy & Hall).
  destruct (Hall [ReadStub UpdateAccessApprovalSettings]
              ltac:(discriminate)) as (s1 & Hl1 & Hh1).
  destruct (Hall [ReadChannel] ltac:(discriminate)) as (s2 & Hl2 & Hh2).
  exists s1, s2, ch. do 4 (split; [assumption |]).
  destruct Hlazy as (h & c & Hh & Hc & ->).
  injection Hh as <-. split; reflexivity.
Defined.

(** ** Explicit credentials *)

(** Construction with explicit credentials and no credentials file looks
    no credentials up, stores the credentials it was given and puts
    them, and no others, on the channel it creates. *)
Lemma instantiate_explicit (env : Env) (a : InitArgs) (c : Credentials)
    (s : State) :
  channel a = None ->
  credentials a = Some c ->
  str_truthy (credentials_file a) = false ->
  let r := instantiate env a s in
  exists evs,
    trace (snd r) = (trace s ++ evs)%list /\
    not_called AuthDefault evs /\
    not_called LoadCredentialsFromFile evs /\
    (fst r = Ok tt ->
     _credentials (self (snd r)) = Some (CredObj c) /\
     forall ch,
       held_channel (self (snd r)) = Some ch ->
       ch_credentials ch = c /\ ca_credentials (ch_args ch) = CredObj c).
Proof.
  intros Hch Hc Hf r. subst r. unfold_py. cbn. rewrite Hch, Hc. cbn.
  destruct (api_mtls_endpoint a) as [[| x e] |]; cbn;
    try (destruct (client_cert_source a) as [cb |]; cbn;
         [destruct (cb tt) as [[cert key] | err]; cbn
         | destruct (platform_ssl_credentials env) as [ssl |]; cbn]);
    destruct (credentials_file a) as [[| y f] |]; try discriminate Hf; cbn;
    rewrite <- ?app_assoc; cbn [app];
    (eexists; split; [reflexivity |]);
    (split; [no_such_call |]); (split; [no_such_call |]);
    try discriminate;
    (intros _; split; [reflexivity |]);
    unfold held_channel; cbn; intros ch [= <-]; split; reflexivity.
Qed.

Lemma not_called_reads (c : Callee) (evs : list Event) :
  c <> CreateChannel -> c <> GrpcHelpersCreateChannel -> c <> UnaryUnary ->
  reads_only evs -> not_called c evs.
Proof.
  intros H1 H2 H3 Ho e Hin. destruct (Ho e Hin) as [H | [H | H]]; congruence.
Qed.

(** X12.  Explicit credentials are the ones used, and ambient discovery
    is never attempted: for a construction without a channel, with
    explicit credentials and no credentials file, neither the
    construction nor any later read calls [auth.default] or
    [load_credentials_from_file], and the channel of the instance,
    whether the constructor created it for a mutual-TLS endpoint or a
    read created it, carries exactly the credentials supplied. *)
Theorem explicit_credentials_are_used (env : Env) (a : InitArgs)
    (c : Credentials) (s : State) :
  channel a = None ->
  credentials a = Some c ->
  str_truthy (credentials_file a) = false ->
  fst (instantiate env a s) = Ok tt ->
  let s0 := snd (instantiate env a s) in
  forall l, exists s1 ch s2,
    accesses env l s0 = (Ok tt, s1) /\
    grpc_channel env s1 = (Ok (Some ch), s2) /\
    ch_credentials ch = c /\
    ca_credentials (ch_args ch) = CredObj c /\
    trace s2 = (trace s ++ events_since s s2)%list /\
    not_called AuthDefault (events_since s s2) /\
    not_called LoadCredentialsFromFile (events_since s s2).
Proof.
  intros Hch Hc Hf Hok s0 l.
  pose proof (instantiate_coherent env a s Hok) as Hcoh.
  destruct (instantiate_explicit env a c s Hch Hc Hf)
    as (evs0 & Htr0 & Hn1 & Hn2 & Hsucc).
  destruct (Hsucc Hok) as (Hcred & Heager).
  fold s0 in Hcoh, Htr0, Hcred, Heager.
  destruct (accesses_then_channel env l s0 Hcoh)
    as (s1 & ch & s2 & Hl & Hgc & Hheld & evs & d & d' & ch' & Htr & Ho & _
        & _ & _ & _ & _ & _ & _ & Hheld' & Hfrom & _).
  rewrite Hheld in Hheld'. injection Hheld' as <-.
  exists s1, ch, s2. split; [exact Hl |]. split; [exact Hgc |].
  assert (Hch' : ch_credentials ch = c /\
                 ca_credentials (ch_args ch) = CredObj c).
  { destruct Hfrom as [H | [_ (h & c' & _ & Hc' & ->)]];
      [exact (Heager ch H) |].
    rewrite Hcred in Hc'. injection Hc' as <-. split; reflexivity. }
  destruct Hch' as [Hc1 Hc2]. split; [exact Hc1 |]. split; [exact Hc2 |].
  assert (Htr2 : trace s2 = (trace s ++ (evs0 ++ evs))%list)
    by (now rewrite Htr, Htr0, app_assoc).
  rewrite (events_since_app _ _ _ Htr2). split; [exact Htr2 |].
  split; apply not_called_app; try assumption;
    apply not_called_reads; try discriminate; exact Ho.
Qed.

(** X12 at explicit credentials in an environment with nothing to
    discover. *)
Lemma explicit_credentials_are_used_witness :
  channel explicit_args = None /\
  credentials explicit_args = Some (Cred 5) /\
  str_truthy (credentials_file explicit_args) = false /\
  fst (instantiate env_bare explicit_args start) = Ok tt /\
  exists s1 ch s2,
    accesses env_bare [ReadStub ListApprovalRequests]
      (snd (instantiate env_bare explicit_args start)) = (Ok tt, s1) /\
    grpc_channel env_bare s1 = (Ok (Some ch), s2) /\
    ch_credentials ch = Cred 5.
Proof.
  do 4 (split; [reflexivity |]).
  destruct (explicit_credentials_are_used env_bare explicit_args (Cred 5)
              start eq_refl eq_refl eq_refl eq_refl
              [ReadStub ListApprovalRequests])
    as (s1 & ch & s2 & Hl & Hgc & Hc & _).
  exists s1, ch, s2. split; [exact Hl |]. split; [exact Hgc | exact Hc].
Defined.

(** ** A credentials file and a mutual-TLS endpoint *)

(** X13.  A credentials file cannot be used with a mutual-TLS endpoint.
    With an endpoint, no channel, no explicit credentials and a
    non-empty credentials file, the branch first discovers ambient
    credentials (lines 143 to 146) and then passes them with the file to
    [create_channel] (lines 159 to 166), which rejects the pair: the
    construction never succeeds, it ends in the authentication error
    when there is nothing to discover, in the error of the TLS material
    when that cannot be assembled, and in [DuplicateCredentialArgs]
    otherwise; the file is never loaded and the base constructor never
    runs. *)
Theorem credentials_file_with_endpoint_fails (env : Env) (a : InitArgs)
    (y : ascii) (f : string) (s : State) :
  channel a = None ->
  str_truthy (api_mtls_endpoint a) = true ->
  credentials a = None ->
  credentials_file a = Some (String y f) ->
  let r := instantiate env a s in
  fst r =
    Raise
      match
        ambient_credentials env (AUTH_SCOPES env) (quota_project_id a)
      with
      | None => DefaultCredentialsError
      | Some _ => default DuplicateCredentialArgs (tls_material_error env a)
      end /\
  trace (snd r) = (trace s ++ events_since s (snd r))%list /\
  not_called LoadCredentialsFromFile (events_since s (snd r)) /\
  not_called BaseInit (events_since s (snd r)).
Proof.
  intros Hch Hm Hc Hf r. subst r. unfold tls_material_error.
  unfold_py. cbn. rewrite Hch, Hm, Hc, Hf. cbn.
  destruct (ambient_credentials env _ _) as [c |]; cbn;
    [destruct (client_cert_source a) as [cb |]; cbn;
     [destruct (cb tt) as [[cert key] | err]; cbn
     | destruct (platform_ssl_credentials env) as [ssl |]; cbn] |];
    (split; [reflexivity |]);
    rewrite <- ?app_assoc; cbn [app];
    erewrite events_since_app by reflexivity;
    (split; [reflexivity |]); split; no_such_call.
Qed.

(** X13 at an endpoint and a credentials file, with ambient credentials
    and platform TLS material at hand. *)
Lemma credentials_file_with_endpoint_fails_witness :
  channel file_mtls_args = None /\
  str_truthy (api_mtls_endpoint file_mtls_args) = true /\
  credentials file_mtls_args = None /\
  credentials_file file_mtls_args = Some "credentials.json" /\
  fst (instantiate env_full file_mtls_args start) =
    Raise DuplicateCredentialArgs.
Proof.
  do 4 (split; [reflexivity |]).
  exact (proj1 (credentials_file_with_endpoint_fails env_full file_mtls_args
                  "c" "redentials.json" start eq_refl eq_refl eq_refl
                  eq_refl)).
Defined.
